(** * Verification of the MCP client web back-end (src/mcp_client_web.py)

    Shallow embedding of the server registry (configurations, live-session
    map, combined tool list) and of the agentic dispatch loop of
    [process_query_async].  The live-session map [state.servers] is a
    Python dict, so it is modelled as an association list that keeps the
    insertion order of its keys (which decides the order of the combined
    tool list).  External effects (process launch and handshake, closing an
    exit stack, the OpenAI completion call, [eval] of the arguments, MCP
    [call_tool]) are inputs of the operations: their outcome, success or the
    text of the raised exception, is a parameter. *)

From Stdlib Require Import List String Ascii Bool Arith ZArith Lia DecimalString DecimalZ.
Import ListNotations.

Local Open Scope string_scope.
Local Open Scope list_scope.

(** ** Data model *)

(** An MCP tool object; [server_name] is the attribute set by
    [rebuild_tools_list] (absent until then). *)
Record tool := mkTool {
  tool_name : string;
  tool_description : string;
  inputSchema : string;
  server_name : option string
}.

(** A server configuration dict [{name, command, args, connected}]. *)
Record server_config := mkConfig {
  cfg_name : string;
  cfg_command : string;
  cfg_args : list string;
  connected : bool
}.

(** The value stored in [state.servers[name]]: the session and exit stack
    are opaque handles; the tool list is what the code reads back. *)
Record server_info := mkInfo {
  info_tools : list tool
}.

(** Observable effects on the outside world, in the order they happen:
    starting a connection attempt (the log line "Connecting to server"),
    closing a server's exit stack, and dropping configurations from
    [state.server_configs]. *)
Inductive event :=
| EvConnecting (name : string)
| EvClosed (name : string)
| EvConfigsRemoved (name : string).

(** The global [MCPClientState] (the OpenAI client, event loop, chat
    history and logs are not read back by the operations modelled). *)
Record state := mkState {
  servers : list (string * server_info);
  available_tools : list tool;
  connected_servers : list string;
  server_configs : list server_config;
  trace : list event
}.

Definition initial_state : state := mkState [] [] [] [] [].

(** ** Python dict and list primitives *)

Fixpoint dict_get {A} (k : string) (d : list (string * A)) : option A :=
  match d with
  | [] => None
  | (k', v) :: d' => if String.eqb k k' then Some v else dict_get k d'
  end.

(** [d[k] = v]: an existing key keeps its position, a new key goes last. *)
Fixpoint dict_set {A} (k : string) (v : A) (d : list (string * A)) : list (string * A) :=
  match d with
  | [] => [(k, v)]
  | (k', v') :: d' => if String.eqb k k' then (k, v) :: d' else (k', v') :: dict_set k v d'
  end.

(** [del d[k]] *)
Fixpoint dict_del {A} (k : string) (d : list (string * A)) : list (string * A) :=
  match d with
  | [] => []
  | (k', v') :: d' => if String.eqb k k' then d' else (k', v') :: dict_del k d'
  end.

Definition mem (x : string) (l : list string) : bool := existsb (String.eqb x) l.

(** [l.remove(x)]: drops the first occurrence. *)
Fixpoint list_remove (x : string) (l : list string) : list string :=
  match l with
  | [] => []
  | y :: l' => if String.eqb x y then l' else y :: list_remove x l'
  end.

(** ** State updates *)

Definition set_servers (s : list (string * server_info)) (st : state) : state :=
  mkState s (available_tools st) (connected_servers st) (server_configs st) (trace st).
Definition set_available_tools (a : list tool) (st : state) : state :=
  mkState (servers st) a (connected_servers st) (server_configs st) (trace st).
Definition set_connected_servers (c : list string) (st : state) : state :=
  mkState (servers st) (available_tools st) c (server_configs st) (trace st).
Definition set_server_configs (c : list server_config) (st : state) : state :=
  mkState (servers st) (available_tools st) (connected_servers st) c (trace st).
Definition emit (e : event) (st : state) : state :=
  mkState (servers st) (available_tools st) (connected_servers st) (server_configs st)
    (trace st ++ [e]).

(** [tool.server_name = server_name] *)
Definition stamp (n : string) (t : tool) : tool :=
  mkTool (tool_name t) (tool_description t) (inputSchema t) (Some n).

(** The combined list of [rebuild_tools_list]: every server of the map, in
    the map's order, contributes its tools stamped with its name. *)
Definition combined_tools (s : list (string * server_info)) : list tool :=
  flat_map (fun '(n, i) => map (stamp n) (info_tools i)) s.

Definition rebuild_tools_list (st : state) : state :=
  set_available_tools (combined_tools (servers st)) st.

(** [for config in state.server_configs: if config['name'] == n:
    config['connected'] = b] *)
Definition set_connected_flag (n : string) (b : bool) (cs : list server_config) :
  list server_config :=
  map (fun c => if String.eqb (cfg_name c) n
                then mkConfig (cfg_name c) (cfg_command c) (cfg_args c) b
                else c) cs.

(** ** Registry operations *)

(** The JSON replies of the routes and coroutines; [RInternalServerError]
    is Flask's HTTP 500 answer when an exception escapes a route. *)
Inductive reply :=
| RSuccess (message : string)
| RError (message : string)
| RConnected (server : string) (tool_count : nat)
| RConnectedAll (servers : list string) (total_tools : nat)
| RInternalServerError.

(** How a connection attempt of [connect_server_async] goes:
    - [Connected tools]: the handshake and [list_tools] succeed;
    - [LaunchFailed msg]: starting the server process raises, before
      [stdio_client] has entered anything (a missing command, say);
    - [HandshakeFailed msg]: [initialize] or [list_tools] raises after the
      [stdio_client] and [ClientSession] contexts were entered into the exit
      stack; the [except] answers the error, and the exit stack is dropped
      without [aclose()], so their anyio task groups stay entered on the
      calling task and cancel it at its next suspension point;
    - [HandshakeCancelled]: those task groups cancel the calling task while
      it awaits the handshake; [CancelledError] is not an [Exception] and
      escapes the [except]. *)
Inductive connect_outcome :=
| Connected (tools : list tool)
| LaunchFailed (msg : string)
| HandshakeFailed (msg : string)
| HandshakeCancelled.

(** How a coroutine run as an asyncio task ends: with its return value, or
    cancelled by a [CancelledError] that escapes it. *)
Inductive task_end (A : Type) :=
| Returned (v : A)
| Cancelled.
Arguments Returned {A}.
Arguments Cancelled {A}.

(** What a coroutine leaves: how it ends, whether task groups left entered
    on the running task will cancel it at its next suspension point, and
    the global state. *)
Record run_result (A : Type) := mkRun {
  run_end : task_end A;
  pending_cancel : bool;
  run_state : state
}.
Arguments mkRun {A}.
Arguments run_end {A}.
Arguments pending_cancel {A}.
Arguments run_state {A}.

(** [connect_server_async(server_config)] on a task that already has a
    cancellation pending ([pending]) or not: the log line "Connecting to
    server" comes before the first [await], where a pending cancellation
    is delivered. *)
Definition connect_server_async (pending : bool) (outcome : connect_outcome)
    (cfg : server_config) (st : state) : run_result reply :=
  let n := cfg_name cfg in
  let st := emit (EvConnecting n) st in
  if pending then mkRun Cancelled true st
  else match outcome with
  | LaunchFailed msg => mkRun (Returned (RError msg)) false st
  | HandshakeFailed msg => mkRun (Returned (RError msg)) true st
  | HandshakeCancelled => mkRun Cancelled true st
  | Connected tools =>
      let st := set_servers (dict_set n (mkInfo tools) (servers st)) st in
      let st := set_server_configs (set_connected_flag n true (server_configs st)) st in
      let st := if mem n (connected_servers st) then st
                else set_connected_servers (connected_servers st ++ [n]) st in
      mkRun (Returned (RConnected n (List.length tools))) false (rebuild_tools_list st)
  end.

(** [disconnect_server_async]: [close_error] is [Some msg] when
    [exit_stack.aclose()] raises. *)
Definition disconnect_server_async (close_error : option string) (n : string)
    (st : state) : reply * state :=
  match dict_get n (servers st) with
  | None => (RError "Server not connected", st)
  | Some _ =>
      match close_error with
      | Some msg => (RError msg, st)
      | None =>
          let st := emit (EvClosed n) st in
          let st := set_servers (dict_del n (servers st)) st in
          let st := if mem n (connected_servers st)
                     then set_connected_servers (list_remove n (connected_servers st)) st
                     else st in
          let st := set_server_configs (set_connected_flag n false (server_configs st)) st in
          (RSuccess ("Disconnected from " ++ n)%string, rebuild_tools_list st)
      end
  end.

(** [future = asyncio.run_coroutine_threadsafe(coro, state.loop)] followed
    by [try: result = future.result(timeout=t); return jsonify(result)
    except Exception as e: return jsonify({'status': 'error', 'message':
    str(e)})]: [in_time] tells whether the coroutine ended within the [t]
    seconds.  [TimeoutError] and the [concurrent.futures.CancelledError] of
    a cancelled task are both [Exception]s with an empty [str(e)]. *)
Definition route_reply (in_time : bool) (e : task_end reply) : reply :=
  if in_time then match e with Returned r => r | Cancelled => RError "" end
  else RError "".

(** The [/servers/disconnect] route. *)
Definition disconnect_server (in_time : bool) (close_error : option string) (n : string)
    (st : state) : reply * state :=
  let r := disconnect_server_async close_error n st in
  (route_reply in_time (Returned (fst r)), snd r).

(** The [/servers/remove] route: [state.server_configs] is filtered first;
    then, for a live session, [future.result(timeout=5)] waits for the
    disconnect outside any [try] and drops its reply.  When the disconnect
    does not end within the 5 seconds ([in_time] false), [TimeoutError]
    escapes the route while the disconnect goes on running on the loop. *)
Definition remove_server (in_time : bool) (close_error : option string) (n : string)
    (st : state) : reply * state :=
  let st := set_server_configs
              (filter (fun c => negb (String.eqb (cfg_name c) n)) (server_configs st)) st in
  let st := emit (EvConfigsRemoved n) st in
  match dict_get n (servers st) with
  | Some _ =>
      let st := snd (disconnect_server_async close_error n st) in
      if in_time then (RSuccess ("Server " ++ n ++ " removed")%string, st)
      else (RInternalServerError, st)
  | None => (RSuccess ("Server " ++ n ++ " removed")%string, st)
  end.

(** The [/servers/add] route. *)
Definition add_server (n cmd : string) (args : list string) (st : state) : reply * state :=
  if String.eqb n "" || String.eqb cmd "" then (RError "Name and command are required", st)
  else if existsb (fun s => String.eqb (cfg_name s) n) (server_configs st)
  then (RError "Server with this name already exists", st)
  else (RSuccess ("Server " ++ n ++ " added")%string,
        set_server_configs (server_configs st ++ [mkConfig n cmd args false]) st).

(** The [/servers/connect] route; [connect_server_async] runs as a task of
    its own. *)
Definition connect_server (in_time : bool) (outcome : connect_outcome) (n : string)
    (st : state) : reply * state :=
  if String.eqb n "" then (RError "Server name is required", st)
  else match find (fun s => String.eqb (cfg_name s) n) (server_configs st) with
       | None => (RError "Server not found", st)
       | Some cfg =>
           let r := connect_server_async false outcome cfg st in
           (route_reply in_time (run_end r), run_state r)
       end.

(** The default configuration added by [connect_all_async] when none is
    configured; [script] is [MCP_SERVER_SCRIPT] or its fallback path. *)
Definition default_server (script : string) : server_config :=
  mkConfig "default" "python3" [script] false.

(** [for server_config in state.server_configs: if not
    server_config['connected']: results.append(await
    connect_server_async(server_config))].  A Python list iterator walks the
    list by position and re-reads each element when it reaches it, so the
    [connected] flag tested is the current one ([idx] is the position,
    [remaining] the number of positions left).  All attempts run on the
    one task of [connect_all_async]: a cancellation left pending by one
    attempt is delivered in the next, and the [CancelledError] ends the
    loop. *)
Fixpoint connect_each (outcome : string -> connect_outcome) (idx remaining : nat)
    (pending : bool) (st : state) (results : list reply) : run_result (list reply) :=
  match remaining with
  | 0 => mkRun (Returned results) pending st
  | S r =>
      match nth_error (server_configs st) idx with
      | None => mkRun (Returned results) pending st
      | Some cfg =>
          if connected cfg then connect_each outcome (S idx) r pending st results
          else let c := connect_server_async pending (outcome (cfg_name cfg)) cfg st in
               match run_end c with
               | Cancelled => mkRun Cancelled (pending_cancel c) (run_state c)
               | Returned res =>
                   connect_each outcome (S idx) r (pending_cancel c) (run_state c)
                     (results ++ [res])
               end
      end
  end.

(** [connect_all_async]: [api_key] tells whether [OPENAI_API_KEY] is set;
    [outcome n] is how the connection attempt to server [n] goes.  Its
    [except Exception] does not catch [CancelledError]. *)
Definition connect_all_async (api_key : bool) (script : string)
    (outcome : string -> connect_outcome) (st : state) : run_result reply :=
  if negb api_key
  then mkRun (Returned (RError "OPENAI_API_KEY not found in environment")) false st
  else
    let st := match server_configs st with
              | [] => set_server_configs [default_server script] st
              | _ => st
              end in
    let r := connect_each outcome 0 (List.length (server_configs st)) false st [] in
    match run_end r with
    | Cancelled => mkRun Cancelled (pending_cancel r) (run_state r)
    | Returned _ =>
        mkRun (Returned (RConnectedAll (connected_servers (run_state r))
                                       (List.length (available_tools (run_state r)))))
              (pending_cancel r) (run_state r)
    end.

(** The [/connect] route. *)
Definition connect (in_time : bool) (api_key : bool) (script : string)
    (outcome : string -> connect_outcome) (st : state) : reply * state :=
  let r := connect_all_async api_key script outcome st in
  (route_reply in_time (run_end r), run_state r).

(** The registry requests, with whether the route's wait ended in time and
    the outcome of their external effects.  Requests are taken one after
    the other; the state after a request is the one its coroutine leaves on
    the event loop, also when the route stopped waiting for it earlier. *)
Inductive op :=
| OpAdd (n cmd : string) (args : list string)
| OpConnect (n : string) (in_time : bool) (outcome : connect_outcome)
| OpDisconnect (n : string) (in_time : bool) (close_error : option string)
| OpRemove (n : string) (in_time : bool) (close_error : option string)
| OpConnectAll (in_time : bool) (api_key : bool) (script : string)
    (outcome : string -> connect_outcome).

Definition exec_op (o : op) (st : state) : state :=
  match o with
  | OpAdd n cmd args => snd (add_server n cmd args st)
  | OpConnect n it outcome => snd (connect_server it outcome n st)
  | OpDisconnect n it ce => snd (disconnect_server it ce n st)
  | OpRemove n it ce => snd (remove_server it ce n st)
  | OpConnectAll it k s outcome => snd (connect it k s outcome st)
  end.

Fixpoint run_ops (os : list op) (st : state) : state :=
  match os with
  | [] => st
  | o :: os' => run_ops os' (exec_op o st)
  end.

(** ** The agentic dispatch loop of [process_query_async] *)

(** [tool_call.id], [tool_call.function.name], [tool_call.function.arguments]. *)
Record tool_call := mkCall {
  tc_id : string;
  fname : string;
  arguments : string
}.

(** [response.choices[0].message]; an empty [tool_calls] stands for both
    [None] and [[]] (the code only tests [not response_message.tool_calls]). *)
Record response_message := mkResponse {
  content : option string;
  tool_calls : list tool_call
}.

(** The entries of [messages]. *)
Inductive message :=
| MUser (content : string)
| MAssistant (m : response_message)
| MTool (tool_call_id : string) (name : string) (content : string).

(** An OpenAI function schema [{name, description, parameters}]. *)
Record tool_schema := mkSchema {
  schema_name : string;
  schema_description : string;
  schema_parameters : string
}.

Definition to_schema (t : tool) : tool_schema :=
  mkSchema (tool_name t) (tool_description t) (inputSchema t).

(** [next((t for t in state.available_tools if t.name == tool_name), None)] *)
Definition resolve_tool (avail : list tool) (name : string) : option tool :=
  find (fun t => String.eqb (tool_name t) name) avail.

Definition not_found_msg (name : string) : string :=
  ("Tool " ++ name ++ " not found in any connected server")%string.

Section Dispatch.

(** Parsed argument values. *)
Variable Args : Type.
(** [eval(tool_call.function.arguments)]: the value, or the text of the
    raised exception. *)
Variable parse_args : string -> Args + string.
(** [state.client.chat.completions.create(messages=..., tools=...)]: the
    assistant message, or the text of the raised exception. *)
Variable gateway : list message -> list tool_schema -> response_message + string.
(** [await session.call_tool(name, args)] on the session of the given
    server: [str(result.content)], or the text of the raised exception. *)
Variable call_tool : string -> string -> Args -> string + string.

(** The locals of one query: [messages], [tool_executions], and the log of
    the [call_tool] invocations (server, tool, arguments) sent to sessions. *)
Record qstate := mkQ {
  messages : list message;
  tool_executions : list (string * Args);
  session_calls : list (string * string * Args)
}.

Inductive query_result :=
| QSuccess (response : option string) (tool_executions : list (string * Args))
| QError (message : string).

Definition add_message (m : message) (qs : qstate) : qstate :=
  mkQ (messages qs ++ [m]) (tool_executions qs) (session_calls qs).
Definition add_execution (e : string * Args) (qs : qstate) : qstate :=
  mkQ (messages qs) (tool_executions qs ++ [e]) (session_calls qs).
Definition add_session_call (c : string * string * Args) (qs : qstate) : qstate :=
  mkQ (messages qs) (tool_executions qs) (session_calls qs ++ [c]).

(** [for tool_call in response_message.tool_calls: ...]: [inl] when every
    call went through, [inr (msg, qs)] when one raised (the enclosing
    [try] then answers [{'status': 'error', 'message': str(e)}]). *)
Fixpoint process_tool_calls (reg : state) (tcs : list tool_call) (qs : qstate) :
  qstate + (string * qstate) :=
  match tcs with
  | [] => inl qs
  | tc :: rest =>
      let tool_name := fname tc in
      match parse_args (arguments tc) with
      | inr e => inr (e, qs)
      | inl tool_args =>
          let qs := add_execution (tool_name, tool_args) qs in
          match resolve_tool (available_tools reg) tool_name with
          | None =>
              process_tool_calls reg rest
                (add_message (MTool (tc_id tc) tool_name (not_found_msg tool_name)) qs)
          | Some tool_obj =>
              match server_name tool_obj with
              | None => inr ("'Tool' object has no attribute 'server_name'"%string, qs)
              | Some sn =>
                  match dict_get sn (servers reg) with
                  | None => inr (("'" ++ sn ++ "'")%string, qs)
                  | Some _ =>
                      let qs := add_session_call (sn, tool_name, tool_args) qs in
                      match call_tool sn tool_name tool_args with
                      | inr e => inr (e, qs)
                      | inl result =>
                          process_tool_calls reg rest
                            (add_message (MTool (tc_id tc) tool_name result) qs)
                      end
                  end
              end
          end
      end
  end.

(** [while True:]; [fuel] bounds the number of iterations looked at, and
    [None] means the loop is still running after [fuel] round trips (the
    code itself has no bound: [loop_count] is only written to the log). *)
Fixpoint agentic_loop (reg : state) (tools : list tool_schema) (fuel : nat)
    (qs : qstate) : option (query_result * qstate) :=
  match fuel with
  | 0 => None
  | S f =>
      match gateway (messages qs) tools with
      | inr e => Some (QError e, qs)
      | inl resp =>
          let qs := add_message (MAssistant resp) qs in
          match tool_calls resp with
          | [] => Some (QSuccess (content resp) (tool_executions qs), qs)
          | tcs =>
              match process_tool_calls reg tcs qs with
              | inr (e, qs') => Some (QError e, qs')
              | inl qs' => agentic_loop reg tools f qs'
              end
          end
      end
  end.

Definition initial_qstate (query : string) : qstate := mkQ [MUser query] [] [].

(** [process_query_async(query)], observed for [fuel] round trips. *)
Definition process_query_async (reg : state) (query : string) (fuel : nat) :
  option (query_result * qstate) :=
  agentic_loop reg (map to_schema (available_tools reg)) fuel (initial_qstate query).

End Dispatch.

Arguments mkQ {Args}.
Arguments messages {Args}.
Arguments tool_executions {Args}.
Arguments session_calls {Args}.
Arguments QSuccess {Args}.
Arguments QError {Args}.
Arguments add_message {Args}.
Arguments add_execution {Args}.
Arguments add_session_call {Args}.
Arguments process_tool_calls {Args}.
Arguments agentic_loop {Args}.
Arguments process_query_async {Args}.
Arguments initial_qstate {Args}.

(** ** Status and chat routes (src/mcp_client_web.py) *)

(** The JSON of [/status]. *)
Record status_reply := mkStatus {
  status_connected : bool;
  status_connected_servers : list string;
  total_servers : nat;
  tools_count : nat
}.

Definition get_status (st : state) : status_reply :=
  mkStatus (Nat.ltb 0 (List.length (connected_servers st))) (connected_servers st)
    (List.length (server_configs st)) (List.length (available_tools st)).



(** ** The command-line client (src/mcp_client.py, [MCPClient.process_query]) *)

(** The locals of one query of the command-line client: [messages] and the
    [call_tool] invocations (tool, arguments) sent to its one session. *)
Record cli_state (Args : Type) := mkCli {
  cli_messages : list message;
  cli_calls : list (string * Args)
}.
Arguments mkCli {Args}.
Arguments cli_messages {Args}.
Arguments cli_calls {Args}.

(** [process_query] returns the content, or raises. *)
Inductive cli_result :=
| CliReturn (content : option string)
| CliRaise (message : string).

Section Cli.
Variable Args : Type.
Variable parse_args : string -> Args + string.
Variable gateway : list message -> list tool_schema -> response_message + string.
(** [await self.session.call_tool(tool_name, tool_args)] *)
Variable session_call : string -> Args -> string + string.

Fixpoint cli_tool_calls (tcs : list tool_call) (cs : cli_state Args) :
  cli_state Args + (string * cli_state Args) :=
  match tcs with
  | [] => inl cs
  | tc :: rest =>
      match parse_args (arguments tc) with
      | inr e => inr (e, cs)
      | inl tool_args =>
          let cs := mkCli (cli_messages cs) (cli_calls cs ++ [(fname tc, tool_args)]) in
          match session_call (fname tc) tool_args with
          | inr e => inr (e, cs)
          | inl result =>
              cli_tool_calls rest
                (mkCli (cli_messages cs ++ [MTool (tc_id tc) (fname tc) result]) (cli_calls cs))
          end
      end
  end.

Fixpoint cli_loop (tools : list tool_schema) (fuel : nat) (cs : cli_state Args) :
  option (cli_result * cli_state Args) :=
  match fuel with
  | 0 => None
  | S f =>
      match gateway (cli_messages cs) tools with
      | inr e => Some (CliRaise e, cs)
      | inl resp =>
          let cs := mkCli (cli_messages cs ++ [MAssistant resp]) (cli_calls cs) in
          match tool_calls resp with
          | [] => Some (CliReturn (content resp), cs)
          | tcs =>
              match cli_tool_calls tcs cs with
              | inr (e, cs') => Some (CliRaise e, cs')
              | inl cs' => cli_loop tools f cs'
              end
          end
      end
  end.

(** [MCPClient.process_query(query)] over the tools of [connect_to_server]. *)
Definition cli_process_query (available : list tool) (query : string) (fuel : nat) :
  option (cli_result * cli_state Args) :=
  cli_loop (map to_schema available) fuel (mkCli [MUser query] []).

End Cli.

Arguments cli_tool_calls {Args}.
Arguments cli_loop {Args}.
Arguments cli_process_query {Args}.

(** ** The example server (src/mcp_server.py, [handle_call_tool]) *)

(** The argument values the tools read: JSON strings, integers, booleans
    and [null], with their Python types. *)
Inductive pyval :=
| PStr (s : string)
| PInt (z : Z)
| PBool (b : bool)
| PNone.

Definition py_type_name (v : pyval) : string :=
  match v with
  | PStr _ => "str"
  | PInt _ => "int"
  | PBool _ => "bool"
  | PNone => "NoneType"
  end.

(** [str(v)] *)
Definition py_str (v : pyval) : string :=
  match v with
  | PStr s => s
  | PInt z => NilZero.string_of_int (Z.to_int z)
  | PBool true => "True"
  | PBool false => "False"
  | PNone => "None"
  end.

Definition dquote : string := String (ascii_of_nat 34) EmptyString.

(** [a + b]: integers add (a boolean counts as 0 or 1), strings
    concatenate, any other pair raises [TypeError] with CPython's text. *)
Definition py_add (a b : pyval) : pyval + string :=
  let as_int v := match v with
                  | PInt z => Some z
                  | PBool true => Some 1%Z
                  | PBool false => Some 0%Z
                  | _ => None
                  end in
  match a, b with
  | PStr s1, PStr s2 => inl (PStr (s1 ++ s2)%string)
  | PStr _, _ =>
      inr ("can only concatenate str (not " ++ dquote ++ py_type_name b ++ dquote ++
           ") to str")%string
  | _, _ =>
      match as_int a, as_int b with
      | Some x, Some y => inl (PInt (x + y)%Z)
      | _, _ =>
          inr ("unsupported operand type(s) for +: '" ++ py_type_name a ++ "' and '" ++
               py_type_name b ++ "'")%string
      end
  end.

(** [arguments.get(k, default)] *)
Definition arg_get (arguments : list (string * pyval)) (k : string) (default : pyval) : pyval :=
  match dict_get k arguments with
  | Some v => v
  | None => default
  end.

(** [handle_call_tool(name, arguments)], as the text of the single
    [TextContent] it returns: every exception is caught and turned into
    ["Error: " + str(e)].  [weather name arguments] is what the two weather
    branches build from their HTTP exchanges with api.weather.gov: the
    text, or the text of the raised exception. *)
Definition handle_call_tool (weather : string -> list (string * pyval) -> string + string)
    (name : string) (arguments : list (string * pyval)) : string :=
  let outcome :=
    if String.eqb name "echo" then
      inl ("Echo: " ++ py_str (arg_get arguments "message" (PStr "")))%string
    else if String.eqb name "add_numbers" then
      match py_add (arg_get arguments "a" (PInt 0)) (arg_get arguments "b" (PInt 0)) with
      | inl result => inl ("Result: " ++ py_str result)%string
      | inr e => inr e
      end
    else if String.eqb name "get_weather_forecast" then weather name arguments
    else if String.eqb name "get_weather_alerts" then weather name arguments
    else inr ("Unknown tool: " ++ name)%string
  in
  match outcome with
  | inl text => text
  | inr e => ("Error: " ++ e)%string
  end.

(** The tool names [handle_list_tools] returns. *)
Definition server_tool_names : list string :=
  ["get_weather_forecast"; "get_weather_alerts"; "echo"; "add_numbers"].

(** Weather branches whose HTTP exchange fails. *)
Definition weather_down (name : string) (_ : list (string * pyval)) : string + string :=
  inr "All connection attempts failed".

(** ** Observers of a transcript *)

(** The tool calls requested by the assistant turns of a transcript. *)
Definition all_calls (ms : list message) : list tool_call :=
  flat_map (fun m => match m with MAssistant r => tool_calls r | _ => [] end) ms.

(** The (name, parsed arguments) pairs of those calls whose arguments
    parse. *)
Definition requested {Args} (parse_args : string -> Args + string) (tcs : list tool_call) :
  list (string * Args) :=
  flat_map (fun tc => match parse_args (arguments tc) with
                      | inl a => [(fname tc, a)]
                      | inr _ => []
                      end) tcs.

(** Every record of [tool_executions] belongs to a requested call, one per
    call, in order. *)
Definition records_match {Args} (parse_args : string -> Args + string) (qs : qstate Args) :
  Prop :=
  tool_executions qs = requested parse_args (all_calls (messages qs)) /\
  map fst (tool_executions qs) = map fname (all_calls (messages qs)).

Definition is_tool_turn (m : message) : Prop :=
  match m with MTool _ _ _ => True | _ => False end.

(** ** Concrete dispatch inputs *)

(** An argument parser that accepts the payload ["{}"] and raises on
    anything else, as [eval] does on a truncated dict literal. *)
Definition demo_parse (s : string) : nat + string :=
  if String.eqb s "{}" then inl 0 else inr "'{' was never closed".

Definition demo_call (server tool : string) (a : nat) : string + string :=
  inl "[TextContent(type='text', text='ok')]".

(** Asks once for [echo] with a malformed payload, then answers. *)
Definition gw_bad_args (ms : list message) (_ : list tool_schema) :
  response_message + string :=
  match ms with
  | [_] => inl (mkResponse None [mkCall "call_1" "echo" "{"])
  | _ => inl (mkResponse (Some "done") [])
  end.

(** Asks once for an unknown tool with a malformed payload, then answers. *)
Definition gw_unknown_bad_args (ms : list message) (_ : list tool_schema) :
  response_message + string :=
  match ms with
  | [_] => inl (mkResponse None [mkCall "call_1" "missing" "{"])
  | _ => inl (mkResponse (Some "done") [])
  end.

(** Asks once for [echo], the unknown [missing] and [echo] again, then
    answers. *)
Definition unknown_between_resp : response_message :=
  mkResponse None [mkCall "call_1" "echo" "{}"; mkCall "call_2" "missing" "{}";
                   mkCall "call_3" "echo" "{}"].

Definition gw_unknown_between (ms : list message) (_ : list tool_schema) :
  response_message + string :=
  match ms with
  | [_] => inl unknown_between_resp
  | _ => inl (mkResponse (Some "done") [])
  end.

(** Asks for the unknown tool [missing] in every round trip. *)
Definition gw_forever (ms : list message) (_ : list tool_schema) :
  response_message + string :=
  inl (mkResponse None [mkCall "call_1" "missing" "{}"]).

(** Asks once for [echo] and once for the unknown [missing], then answers. *)
Definition gw_echo_missing (ms : list message) (_ : list tool_schema) :
  response_message + string :=
  match ms with
  | [_] => inl (mkResponse None [mkCall "call_1" "echo" "{}"; mkCall "call_2" "missing" "{}"])
  | _ => inl (mkResponse (Some "done") [])
  end.

(** ** Registry properties *)

(** [state.available_tools] is the list [rebuild_tools_list] computes from
    the current [state.servers]. *)
Definition tools_consistent (st : state) : Prop :=
  available_tools st = combined_tools (servers st).

(** A server name is a key of [state.servers] exactly when it is in
    [state.connected_servers], and every configuration whose name is a key
    has [connected] set. *)
Definition sessions_consistent (st : state) : Prop :=
  (forall n, In n (map fst (servers st)) <-> In n (connected_servers st)) /\
  (forall c, In c (server_configs st) -> In (cfg_name c) (map fst (servers st)) ->
             connected c = true).

(** The first half of [sessions_consistent], with what keeps it. *)
Definition keys_tracked (st : state) : Prop :=
  NoDup (map fst (servers st)) /\ NoDup (connected_servers st) /\
  (forall n, In n (map fst (servers st)) <-> In n (connected_servers st)).

(** ** Concrete scenarios *)

(** The exception anyio raises when [aclose()] exits the cancel scopes of
    an exit stack from another task than the one that entered them: the
    routes run [connect_server_async] and [disconnect_server_async] as
    different tasks. *)
Definition cancel_scope_msg : string :=
  "Attempted to exit cancel scope in a different task than it was entered in".

(** A run where closing the session of [a] raises during its removal,
    after which [a] is configured again and [b] connected. *)
Definition close_fails_ops : list op :=
  [OpAdd "a" "python3" ["a.py"];
   OpConnect "a" true (Connected []);
   OpRemove "a" true (Some cancel_scope_msg);
   OpAdd "a" "python3" ["a.py"];
   OpAdd "b" "python3" ["b.py"];
   OpConnect "b" true (Connected [])].

(** Two servers that both expose a tool named [echo]; [s1] connects first. *)
Definition echo_s1 : tool := mkTool "echo" "Echo (s1)" "{text}" None.
Definition echo_s2 : tool := mkTool "echo" "Echo (s2)" "{text}" None.

Definition duplicate_ops : list op :=
  [OpAdd "s1" "python3" ["s1.py"];
   OpAdd "s2" "python3" ["s2.py"];
   OpConnect "s1" true (Connected [echo_s1]);
   OpConnect "s2" true (Connected [echo_s2])].

(** One connected server [a] exposing [echo]. *)
Definition one_server_ops : list op :=
  [OpAdd "a" "python3" ["a.py"]; OpConnect "a" true (Connected [echo_s1])].

(** Two configured servers, to be connected by [connect_all_async]. *)
Definition two_configs_ops : list op :=
  [OpAdd "a" "python3" ["a.py"]; OpAdd "b" "python3" ["b.py"]].

(** The process of [a] starts but closes its stdout before answering the
    handshake; [b] connects. *)
Definition a_fails (n : string) : connect_outcome :=
  if String.eqb n "a" then HandshakeFailed "Connection closed" else Connected [echo_s2].

(** Two configured servers, the command of [a] missing on the host. *)
Definition missing_a_ops : list op :=
  [OpAdd "a" "a-server" []; OpAdd "b" "python3" ["b.py"]].

Definition a_missing_msg : string := "[Errno 2] No such file or directory: 'a-server'".

(** Launching [a] raises [FileNotFoundError]; [b] connects. *)
Definition a_missing (n : string) : connect_outcome :=
  if String.eqb n "a" then LaunchFailed a_missing_msg else Connected [echo_s2].

(** A connection attempt that leaves no cancellation behind. *)
Definition clean_outcome (o : connect_outcome) : bool :=
  match o with
  | Connected _ | LaunchFailed _ => true
  | HandshakeFailed _ | HandshakeCancelled => false
  end.

(** [a] connected, then removed while closing its exit stack raises. *)
Definition removed_live_ops : list op :=
  one_server_ops ++ [OpRemove "a" true (Some cancel_scope_msg)].

(** Number of tools named [x] in a list. *)
Definition count_named (x : string) (ts : list tool) : nat :=
  List.length (filter (fun t => String.eqb (tool_name t) x) ts).

(** The connection attempts [connect_all_async] makes over a list of
    configurations (one per configuration whose flag is unset, in order),
    and the flag each configuration carries once its attempt is over. *)
Definition pending_attempts (cs : list server_config) : list event :=
  map (fun c => EvConnecting (cfg_name c)) (filter (fun c => negb (connected c)) cs).

Definition after_attempt (outcome : string -> connect_outcome) (c : server_config) :
  server_config :=
  if connected c then c
  else match outcome (cfg_name c) with
       | Connected _ => mkConfig (cfg_name c) (cfg_command c) (cfg_args c) true
       | _ => c
       end.

(** The session handle of the command-line client. *)
Definition demo_session (tool : string) (a : nat) : string + string :=
  demo_call "default" tool a.

(** The text of an exception raised by one of the external effects of a
    query: the completion call, [eval] of the arguments, or [call_tool]. *)
Definition external_error {Args} (parse_args : string -> Args + string)
    (gateway : list message -> list tool_schema -> response_message + string)
    (call_tool : string -> string -> Args -> string + string) (e : string) : Prop :=
  (exists ms ts, gateway ms ts = inr e) \/ (exists s, parse_args s = inr e) \/
  (exists sn tn a, call_tool sn tn a = inr e).

(** The locals a batch of tool calls leaves behind, whether it went
    through or raised. *)
Definition after_calls {Args} (r : qstate Args + (string * qstate Args)) : qstate Args :=
  match r with
  | inl q => q
  | inr (_, q) => q
  end.

(** A [call_tool] invocation (server, tool, arguments) addressed to a live
    session that exposes the tool. *)
Definition live_call {Args} (reg : state) (c : string * string * Args) : Prop :=
  exists i, dict_get (fst (fst c)) (servers reg) = Some i /\
            In (snd (fst c)) (map tool_name (info_tools i)).

(** ** Registry lemmas *)

Module Registry.

Lemma eqb_spec_str (a b : string) : String.eqb a b = true <-> a = b.
Proof. apply String.eqb_eq. Qed.

Lemma dict_get_in {A} (k : string) (d : list (string * A)) :
  dict_get k d <> None <-> In k (map fst d).
Proof.
  induction d as [|[k' v] d IH]; simpl.
  - split; [congruence | tauto].
  - destruct (String.eqb k k') eqn:E.
    + apply String.eqb_eq in E; subst. split; [auto | discriminate].
    + apply String.eqb_neq in E. rewrite IH. split; [auto | intros [H|H]; [congruence | exact H]].
Qed.

Lemma keys_dict_set {A} (k : string) (v : A) (d : list (string * A)) (x : string) :
  In x (map fst (dict_set k v d)) <-> x = k \/ In x (map fst d).
Proof.
  induction d as [|[k' v'] d IH]; simpl.
  - intuition congruence.
  - destruct (String.eqb k k') eqn:E; simpl.
    + apply String.eqb_eq in E; subst. intuition congruence.
    + rewrite IH. intuition congruence.
Qed.

Lemma nodup_dict_set {A} (k : string) (v : A) (d : list (string * A)) :
  NoDup (map fst d) -> NoDup (map fst (dict_set k v d)).
Proof.
  induction d as [|[k' v'] d IH]; simpl; intros Hn.
  - constructor; [simpl; tauto | constructor].
  - inversion Hn as [|? ? Hnin Hn']; subst.
    destruct (String.eqb k k') eqn:E; simpl.
    + apply String.eqb_eq in E; subst. constructor; assumption.
    + apply String.eqb_neq in E. constructor; [|auto].
      rewrite keys_dict_set. intros [H|H]; [congruence | contradiction].
Qed.

Lemma keys_dict_del {A} (k : string) (d : list (string * A)) (x : string) :
  NoDup (map fst d) ->
  (In x (map fst (dict_del k d)) <-> In x (map fst d) /\ x <> k).
Proof.
  induction d as [|[k' v'] d IH]; simpl; intros Hn.
  - tauto.
  - inversion Hn as [|? ? Hnin Hn']; subst.
    destruct (String.eqb k k') eqn:E; simpl.
    + apply String.eqb_eq in E; subst.
      split; [intros H; split; [auto | intro; subst; contradiction] | intros [[H|H] Hne]; [congruence | exact H]].
    + apply String.eqb_neq in E. rewrite (IH Hn').
      split; [intros [H|[H Hne]]; [subst; split; auto | auto] |].
      intros [[H|H] Hne]; [left; exact H | right; auto].
Qed.

Lemma nodup_dict_del {A} (k : string) (d : list (string * A)) :
  NoDup (map fst d) -> NoDup (map fst (dict_del k d)).
Proof.
  induction d as [|[k' v'] d IH]; simpl; intros Hn.
  - constructor.
  - inversion Hn as [|? ? Hnin Hn']; subst.
    destruct (String.eqb k k'); simpl; [assumption |].
    constructor; [| auto]. rewrite (keys_dict_del _ _ _ Hn'). tauto.
Qed.

Lemma mem_in (x : string) (l : list string) : mem x l = true <-> In x l.
Proof.
  unfold mem. rewrite existsb_exists.
  split; [intros [y [Hy E]]; apply String.eqb_eq in E; subst; exact Hy
         | intros H; exists x; split; [exact H | apply String.eqb_refl]].
Qed.

Lemma in_list_remove (k x : string) (l : list string) :
  NoDup l -> (In x (list_remove k l) <-> In x l /\ x <> k).
Proof.
  induction l as [|y l IH]; simpl; intros Hn.
  - tauto.
  - inversion Hn as [|? ? Hnin Hn']; subst.
    destruct (String.eqb k y) eqn:E; simpl.
    + apply String.eqb_eq in E; subst.
      split; [intros H; split; [auto | intro; subst; contradiction] | intros [[H|H] Hne]; [congruence | exact H]].
    + apply String.eqb_neq in E. rewrite (IH Hn').
      split; [intros [H|[H Hne]]; [subst; split; auto | auto] |].
      intros [[H|H] Hne]; [left; exact H | right; auto].
Qed.

Lemma nodup_list_remove (k : string) (l : list string) :
  NoDup l -> NoDup (list_remove k l).
Proof.
  induction l as [|y l IH]; simpl; intros Hn.
  - constructor.
  - inversion Hn as [|? ? Hnin Hn']; subst.
    destruct (String.eqb k y); [assumption |].
    constructor; [| auto]. rewrite (in_list_remove _ _ _ Hn'). tauto.
Qed.

Lemma in_set_connected_flag (n : string) (b : bool) (cs : list server_config) c :
  In c (set_connected_flag n b cs) ->
  exists c0, In c0 cs /\ cfg_name c = cfg_name c0 /\
             (cfg_name c0 = n -> connected c = b) /\ (cfg_name c0 <> n -> c = c0).
Proof.
  unfold set_connected_flag. rewrite in_map_iff. intros [c0 [<- Hin]].
  exists c0. split; [exact Hin |].
  destruct (String.eqb (cfg_name c0) n) eqn:E.
  - apply String.eqb_eq in E. simpl. repeat split; intros; congruence.
  - apply String.eqb_neq in E. repeat split; intros; congruence.
Qed.

Lemma names_set_connected_flag (n : string) (b : bool) (cs : list server_config) :
  map cfg_name (set_connected_flag n b cs) = map cfg_name cs.
Proof.
  unfold set_connected_flag. rewrite map_map. apply map_ext.
  intros c. destruct (String.eqb (cfg_name c) n); reflexivity.
Qed.

End Registry.

(** ** Routes and tasks *)

Module Tasks.

Lemma connect_server_state it outcome n st :
  snd (connect_server it outcome n st) =
  match find (fun s => String.eqb (cfg_name s) n) (server_configs st) with
  | Some cfg => if String.eqb n "" then st else run_state (connect_server_async false outcome cfg st)
  | None => st
  end.
Proof.
  unfold connect_server. destruct (String.eqb n ""); destruct (find _ _); reflexivity.
Qed.

Lemma disconnect_server_state it ce n st :
  snd (disconnect_server it ce n st) = snd (disconnect_server_async ce n st).
Proof. reflexivity. Qed.

Lemma remove_server_state it ce n st :
  snd (remove_server it ce n st) =
  let st1 := emit (EvConfigsRemoved n)
               (set_server_configs
                  (filter (fun c => negb (String.eqb (cfg_name c) n)) (server_configs st)) st) in
  match dict_get n (servers st1) with
  | Some _ => snd (disconnect_server_async ce n st1)
  | None => st1
  end.
Proof. unfold remove_server. cbv zeta. destruct (dict_get _ _); [destruct it |]; reflexivity. Qed.

Lemma connect_state it k script outcome st :
  snd (connect it k script outcome st) = run_state (connect_all_async k script outcome st).
Proof. reflexivity. Qed.

(** A property of states that every connection attempt keeps, and that
    adding the default configuration to an empty list keeps, is kept by
    [connect_all_async]. *)
Section Preserved.
Variable P : state -> Prop.
Hypothesis P_attempt : forall pending o cfg st,
  In cfg (server_configs st) -> P st -> P (run_state (connect_server_async pending o cfg st)).
Hypothesis P_default : forall script st,
  server_configs st = [] -> P st -> P (set_server_configs [default_server script] st).

Lemma connect_each_preserves outcome remaining :
  forall idx pending st results, P st ->
  P (run_state (connect_each outcome idx remaining pending st results)).
Proof.
  induction remaining as [|r IH]; intros idx pending st results H; simpl; [exact H |].
  destruct (nth_error (server_configs st) idx) as [cfg|] eqn:En; [| exact H].
  destruct (connected cfg); [apply IH; exact H |].
  assert (Hc := P_attempt pending (outcome (cfg_name cfg)) cfg st (nth_error_In _ _ En) H).
  revert Hc. destruct (connect_server_async pending (outcome (cfg_name cfg)) cfg st) as [e p st'].
  simpl. intros Hc. destruct e; [apply IH; exact Hc | exact Hc].
Qed.

Lemma connect_all_preserves k script outcome st :
  P st -> P (run_state (connect_all_async k script outcome st)).
Proof.
  intros H. unfold connect_all_async. destruct (negb k); [exact H |].
  set (st0 := match server_configs st with [] => _ | _ :: _ => st end).
  assert (H0 : P st0).
  { unfold st0. destruct (server_configs st) eqn:E; [apply P_default; assumption | exact H]. }
  assert (H1 := connect_each_preserves outcome (List.length (server_configs st0)) 0 false st0 [] H0).
  revert H1. destruct (connect_each outcome 0 _ false st0 []) as [e p st'].
  simpl. intros H1. destruct e; exact H1.
Qed.

End Preserved.

End Tasks.

(** ** The combined tool list follows the live-session map *)

Module Aggregate.

Lemma rebuild_consistent (st : state) : tools_consistent (rebuild_tools_list st).
Proof. reflexivity. Qed.

Lemma connect_server_async_consistent pending outcome cfg st :
  tools_consistent st ->
  tools_consistent (run_state (connect_server_async pending outcome cfg st)).
Proof.
  intros H. destruct pending; [exact H |].
  destruct outcome; [apply rebuild_consistent | exact H | exact H | exact H].
Qed.

Lemma disconnect_consistent ce n st :
  tools_consistent st -> tools_consistent (snd (disconnect_server_async ce n st)).
Proof.
  intros H. unfold disconnect_server_async.
  destruct (dict_get n (servers st)); [| exact H].
  destruct ce; [exact H | apply rebuild_consistent].
Qed.

Lemma exec_op_consistent o st :
  tools_consistent st -> tools_consistent (exec_op o st).
Proof.
  intros H. destruct o as [n cmd args|n it outcome|n it ce|n it ce|it k s outcome];
    unfold exec_op.
  - unfold add_server.
    destruct (String.eqb n "" || String.eqb cmd ""); [exact H |].
    destruct (existsb _ _); exact H.
  - rewrite Tasks.connect_server_state.
    destruct (find _ _); [destruct (String.eqb n "") |];
      [exact H | apply connect_server_async_consistent; exact H | exact H].
  - rewrite Tasks.disconnect_server_state. apply disconnect_consistent; exact H.
  - rewrite Tasks.remove_server_state. cbv zeta.
    destruct (dict_get n _); [apply disconnect_consistent; exact H | exact H].
  - rewrite Tasks.connect_state.
    apply (Tasks.connect_all_preserves tools_consistent); [| | exact H].
    + intros p o' cfg st' _. apply connect_server_async_consistent.
    + intros script st' _ H'. exact H'.
Qed.

End Aggregate.

(** ** The live-session map and [connected_servers] *)

Module Sessions.
Import Registry.

Lemma connect_ok_fields tools cfg st :
  let st' := run_state (connect_server_async false (Connected tools) cfg st) in
  servers st' = dict_set (cfg_name cfg) (mkInfo tools) (servers st) /\
  connected_servers st' =
    (if mem (cfg_name cfg) (connected_servers st) then connected_servers st
     else connected_servers st ++ [cfg_name cfg]) /\
  server_configs st' = set_connected_flag (cfg_name cfg) true (server_configs st).
Proof. simpl. destruct (mem _ _); simpl; auto. Qed.

Lemma disconnect_ok_fields n st i :
  dict_get n (servers st) = Some i ->
  let st' := snd (disconnect_server_async None n st) in
  servers st' = dict_del n (servers st) /\
  connected_servers st' =
    (if mem n (connected_servers st) then list_remove n (connected_servers st)
     else connected_servers st) /\
  server_configs st' = set_connected_flag n false (server_configs st).
Proof.
  intros E. unfold disconnect_server_async. rewrite E. simpl.
  destruct (mem _ _); simpl; auto.
Qed.

Lemma names_filter_out (n m : string) (cs : list server_config) :
  In m (map cfg_name (filter (fun c => negb (String.eqb (cfg_name c) n)) cs)) <->
  In m (map cfg_name cs) /\ m <> n.
Proof.
  rewrite !in_map_iff. split.
  - intros [c [<- Hc]]. apply filter_In in Hc. destruct Hc as [Hc E].
    split; [exists c; auto |]. intros Heq. rewrite Heq, String.eqb_refl in E. discriminate.
  - intros [[c [<- Hc]] Hne]. exists c. split; [reflexivity |].
    apply filter_In. split; [exact Hc |].
    apply String.eqb_neq in Hne. rewrite Hne. reflexivity.
Qed.

Lemma connect_tracked pending outcome cfg st :
  keys_tracked st -> keys_tracked (run_state (connect_server_async pending outcome cfg st)).
Proof.
  intros [Hk [Hc H1]].
  destruct pending; [exact (conj Hk (conj Hc H1)) |].
  destruct outcome as [tools|msg|msg|]; try exact (conj Hk (conj Hc H1)).
  destruct (connect_ok_fields tools cfg st) as [Es [Ec _]].
  set (n := cfg_name cfg) in *.
  unfold keys_tracked. rewrite Es, Ec.
  repeat split.
  - apply nodup_dict_set; exact Hk.
  - destruct (mem n (connected_servers st)) eqn:M; [exact Hc |].
    apply NoDup_app; [exact Hc | constructor; [simpl; tauto | constructor] |].
    intros a Ha [Ea|[]]; subst a.
    apply mem_in in Ha. congruence.
  - intros Hm. apply keys_dict_set in Hm.
    destruct (mem n (connected_servers st)) eqn:M.
    + apply mem_in in M. destruct Hm as [->|Hm]; [exact M | apply H1; exact Hm].
    + apply in_app_iff. destruct Hm as [->|Hm]; [right; left; reflexivity | left; apply H1; exact Hm].
  - intros Hm. apply keys_dict_set.
    destruct (mem n (connected_servers st)) eqn:M.
    + right; apply H1; exact Hm.
    + apply in_app_iff in Hm. destruct Hm as [Hm|[Hm|[]]]; [right; apply H1; exact Hm | left; auto].
Qed.

Lemma disconnect_tracked ce n st :
  keys_tracked st -> keys_tracked (snd (disconnect_server_async ce n st)).
Proof.
  intros Ht.
  destruct (dict_get n (servers st)) as [i|] eqn:E;
    [| unfold disconnect_server_async; rewrite E; exact Ht].
  destruct ce as [msg|]; [unfold disconnect_server_async; rewrite E; exact Ht |].
  destruct Ht as [Hk [Hc H1]].
  destruct (disconnect_ok_fields n st i E) as [Es [Ec _]].
  unfold keys_tracked. rewrite Es, Ec.
  assert (Hnk : In n (map fst (servers st))) by (apply dict_get_in; congruence).
  assert (M : mem n (connected_servers st) = true) by (apply mem_in; apply H1; exact Hnk).
  rewrite M.
  repeat split.
  - apply nodup_dict_del; exact Hk.
  - apply nodup_list_remove; exact Hc.
  - intros Hm. apply (keys_dict_del _ _ _ Hk) in Hm. destruct Hm as [Hm Hne].
    apply (in_list_remove _ _ _ Hc). split; [apply H1; exact Hm | exact Hne].
  - intros Hm. apply (in_list_remove _ _ _ Hc) in Hm. destruct Hm as [Hm Hne].
    apply (keys_dict_del _ _ _ Hk). split; [apply H1; exact Hm | exact Hne].
Qed.

Lemma exec_op_tracked o st : keys_tracked st -> keys_tracked (exec_op o st).
Proof.
  intros H. destruct o as [n cmd args|n it outcome|n it ce|n it ce|it k s outcome];
    unfold exec_op.
  - unfold add_server.
    destruct (String.eqb n "" || String.eqb cmd ""); [exact H |].
    destruct (existsb _ _); exact H.
  - rewrite Tasks.connect_server_state.
    destruct (find _ _); [destruct (String.eqb n "") |];
      [exact H | apply connect_tracked; exact H | exact H].
  - rewrite Tasks.disconnect_server_state. apply disconnect_tracked; exact H.
  - rewrite Tasks.remove_server_state. cbv zeta.
    destruct (dict_get n _); [apply disconnect_tracked; exact H | exact H].
  - rewrite Tasks.connect_state.
    apply (Tasks.connect_all_preserves keys_tracked); [| | exact H].
    + intros p o' cfg st' _. apply connect_tracked.
    + intros script st' _ H'. exact H'.
Qed.

End Sessions.

Module Runs.
Import Sessions.

Lemma run_ops_consistent os :
  forall st, tools_consistent st ->
             tools_consistent (run_ops os st).
Proof.
  induction os as [|o os IH]; intros st H; simpl; [exact H |].
  apply IH. apply Aggregate.exec_op_consistent; exact H.
Qed.

Lemma run_ops_tracked os :
  forall st, keys_tracked st -> keys_tracked (run_ops os st).
Proof.
  induction os as [|o os IH]; intros st H; simpl; [exact H |].
  apply IH. apply exec_op_tracked; exact H.
Qed.

Lemma initial_tracked : keys_tracked initial_state.
Proof. repeat split; simpl; try constructor; tauto. Qed.

End Runs.

Module Routing.

Lemma find_app {A} (f : A -> bool) (l1 l2 : list A) :
  find f (l1 ++ l2) = match find f l1 with Some x => Some x | None => find f l2 end.
Proof. induction l1 as [|a l1 IH]; simpl; [reflexivity |]. destruct (f a); auto. Qed.

Lemma find_stamp_none x n (ts : list tool) :
  ~ In x (map tool_name ts) ->
  find (fun t => String.eqb (tool_name t) x) (map (stamp n) ts) = None.
Proof.
  induction ts as [|t ts IH]; simpl; intros Hn; [reflexivity |].
  destruct (String.eqb (tool_name t) x) eqn:E.
  - apply String.eqb_eq in E. exfalso. apply Hn. left; exact E.
  - apply IH. tauto.
Qed.

Lemma find_stamp_some x n (ts : list tool) :
  In x (map tool_name ts) ->
  exists t, find (fun t => String.eqb (tool_name t) x) (map (stamp n) ts) = Some t /\
            server_name t = Some n.
Proof.
  induction ts as [|t ts IH]; simpl; intros Hn; [contradiction |].
  destruct (String.eqb (tool_name t) x) eqn:E.
  - eexists; split; reflexivity.
  - apply IH. destruct Hn as [Hn|Hn]; [apply String.eqb_neq in E; contradiction | exact Hn].
Qed.

Lemma combined_app s1 s2 : combined_tools (s1 ++ s2) = combined_tools s1 ++ combined_tools s2.
Proof. unfold combined_tools. apply flat_map_app. Qed.

Lemma resolve_first_owner x pre n i post :
  (forall m j, In (m, j) pre -> ~ In x (map tool_name (info_tools j))) ->
  In x (map tool_name (info_tools i)) ->
  option_map server_name (resolve_tool (combined_tools (pre ++ (n, i) :: post)) x) =
  Some (Some n).
Proof.
  intros Hpre Hi. unfold resolve_tool. rewrite combined_app, find_app.
  assert (E : find (fun t => String.eqb (tool_name t) x) (combined_tools pre) = None).
  { induction pre as [|[m j] pre IH]; simpl; [reflexivity |].
    rewrite find_app, find_stamp_none; [| apply (Hpre m j); left; reflexivity].
    apply IH. intros m' j' H. apply (Hpre m' j'). right; exact H. }
  rewrite E. simpl. rewrite find_app.
  destruct (find_stamp_some x n (info_tools i) Hi) as [t [Ht Hs]].
  rewrite Ht. simpl. rewrite Hs. reflexivity.
Qed.

Lemma count_named_app x l1 l2 :
  count_named x (l1 ++ l2) = count_named x l1 + count_named x l2.
Proof. unfold count_named. rewrite filter_app, length_app. reflexivity. Qed.

Lemma count_named_stamp x n ts : count_named x (map (stamp n) ts) = count_named x ts.
Proof.
  induction ts as [|t ts IH]; [reflexivity |].
  unfold count_named in *. simpl. destruct (String.eqb (tool_name t) x); simpl; auto.
Qed.

Lemma count_combined x s :
  count_named x (combined_tools s) =
  list_sum (map (fun '(_, j) => count_named x (info_tools j)) s).
Proof.
  induction s as [|[m j] s IH]; [reflexivity |].
  change (combined_tools ((m, j) :: s)) with (map (stamp m) (info_tools j) ++ combined_tools s).
  rewrite count_named_app, count_named_stamp, IH. reflexivity.
Qed.

Lemma combined_owner t s :
  In t (combined_tools s) -> exists m, server_name t = Some m /\ In m (map fst s).
Proof.
  unfold combined_tools. rewrite in_flat_map. intros [[m j] [Hin Ht]].
  apply in_map_iff in Ht. destruct Ht as [t0 [<- _]].
  exists m. split; [reflexivity | apply in_map_iff; exists (m, j); auto].
Qed.

End Routing.

Module Removal.
Import Registry Sessions.

Lemma filter_keep_all {A} (f : A -> bool) (l : list A) :
  (forall x, In x l -> f x = true) -> filter f l = l.
Proof.
  induction l as [|a l IH]; simpl; intros H; [reflexivity |].
  rewrite (H a (or_introl eq_refl)). f_equal. apply IH. intros x Hx. apply H. right; exact Hx.
Qed.

Lemma set_connected_flag_absent n b cs :
  ~ In n (map cfg_name cs) -> set_connected_flag n b cs = cs.
Proof.
  induction cs as [|c cs IH]; simpl; intros Hn; [reflexivity |].
  destruct (String.eqb (cfg_name c) n) eqn:E.
  - apply String.eqb_eq in E. exfalso. apply Hn. left; exact E.
  - f_equal. apply IH. tauto.
Qed.

Lemma disconnect_ok_trace n st i :
  dict_get n (servers st) = Some i ->
  trace (snd (disconnect_server_async None n st)) = trace st ++ [EvClosed n] /\
  available_tools (snd (disconnect_server_async None n st)) =
    combined_tools (dict_del n (servers st)).
Proof.
  intros E. unfold disconnect_server_async. rewrite E. simpl.
  destruct (mem _ _); simpl; auto.
Qed.

Lemma disconnect_error_state n msg st :
  snd (disconnect_server_async (Some msg) n st) = st.
Proof. unfold disconnect_server_async. destruct (dict_get n (servers st)); reflexivity. Qed.

Lemma disconnect_configs_absent ce n st :
  ~ In n (map cfg_name (server_configs st)) ->
  server_configs (snd (disconnect_server_async ce n st)) = server_configs st.
Proof.
  intros Hn. destruct (dict_get n (servers st)) as [i|] eqn:E.
  - destruct ce as [msg|]; [rewrite disconnect_error_state; reflexivity |].
    destruct (disconnect_ok_fields n st i E) as [_ [_ Ecf]].
    rewrite Ecf. apply set_connected_flag_absent; exact Hn.
  - unfold disconnect_server_async. rewrite E. reflexivity.
Qed.

Lemma no_config_after_filter n cs :
  ~ In n (map cfg_name (filter (fun c => negb (String.eqb (cfg_name c) n)) cs)).
Proof. intros H. apply names_filter_out in H. destruct H as [_ H]. apply H; reflexivity. Qed.

End Removal.

Module Loop.

Section WithOracles.
Context {Args : Type} (parse : string -> Args + string)
        (gw : list message -> list tool_schema -> response_message + string)
        (call : string -> string -> Args -> string + string).

Lemma process_app reg l1 l2 qs :
  process_tool_calls parse call reg (l1 ++ l2) qs =
  match process_tool_calls parse call reg l1 qs with
  | inl q => process_tool_calls parse call reg l2 q
  | inr x => inr x
  end.
Proof.
  revert qs. induction l1 as [|tc l1 IH]; intros qs; simpl; [reflexivity |].
  destruct (parse (arguments tc)); [| reflexivity].
  destruct (resolve_tool _ _) as [t|]; [| apply IH].
  destruct (server_name t); [| reflexivity].
  destruct (dict_get _ _); [| reflexivity].
  destruct (call _ _ _); [apply IH | reflexivity].
Qed.

Lemma all_calls_app l1 l2 : all_calls (l1 ++ l2) = all_calls l1 ++ all_calls l2.
Proof. apply flat_map_app. Qed.

Lemma all_calls_tool_turns ts : Forall is_tool_turn ts -> all_calls ts = [].
Proof.
  induction 1 as [|m ts Hm _ IH]; [reflexivity |].
  destruct m; simpl in Hm; try contradiction. exact IH.
Qed.

Lemma requested_app l1 l2 :
  requested parse (l1 ++ l2) = requested parse l1 ++ requested parse l2.
Proof. apply flat_map_app. Qed.

(** A batch of calls that goes through only adds tool turns, and records
    every call with its parsed arguments. *)
Lemma process_ok_shape reg tcs :
  forall qs qs', process_tool_calls parse call reg tcs qs = inl qs' ->
  (exists ts, messages qs' = messages qs ++ ts /\ Forall is_tool_turn ts) /\
  tool_executions qs' = tool_executions qs ++ requested parse tcs /\
  map fst (requested parse tcs) = map fname tcs.
Proof.
  induction tcs as [|tc tcs IH]; intros qs qs' H; simpl in H.
  - injection H as <-. split; [exists []; split; [symmetry; apply app_nil_r | constructor] |].
    split; [symmetry; apply app_nil_r | reflexivity].
  - unfold requested at 1 2. simpl. fold (requested parse tcs).
    destruct (parse (arguments tc)) as [a|e]; [| discriminate].
    destruct (resolve_tool (available_tools reg) (fname tc)) as [t|].
    + destruct (server_name t) as [sn|]; [| discriminate].
      destruct (dict_get sn (servers reg)); [| discriminate].
      destruct (call sn (fname tc) a) as [r|e]; [| discriminate].
      destruct (IH _ _ H) as [[ts [Em Ets]] [Ee Ef]]. simpl in Em, Ee.
      split; [exists (MTool (tc_id tc) (fname tc) r :: ts); split;
              [rewrite Em, <- app_assoc; reflexivity | constructor; [exact I | exact Ets]] |].
      split; [rewrite Ee, <- app_assoc; reflexivity | simpl; f_equal; exact Ef].
    + destruct (IH _ _ H) as [[ts [Em Ets]] [Ee Ef]]. simpl in Em, Ee.
      split; [exists (MTool (tc_id tc) (fname tc) (not_found_msg (fname tc)) :: ts); split;
              [rewrite Em, <- app_assoc; reflexivity | constructor; [exact I | exact Ets]] |].
      split; [rewrite Ee, <- app_assoc; reflexivity | simpl; f_equal; exact Ef].
Qed.

Lemma loop_success_records reg tools fuel :
  forall qs c recs qs', records_match parse qs ->
  agentic_loop parse gw call reg tools fuel qs = Some (QSuccess c recs, qs') ->
  recs = tool_executions qs' /\ records_match parse qs'.
Proof.
  induction fuel as [|f IH]; intros qs c recs qs' Hm H; cbn -[process_tool_calls] in H;
    [discriminate |].
  destruct (gw (messages qs) tools) as [resp|e]; [| discriminate].
  destruct Hm as [He Hf].
  assert (Eall : all_calls (messages (add_message (MAssistant resp) qs)) =
                 all_calls (messages qs) ++ tool_calls resp).
  { simpl. rewrite all_calls_app. simpl. rewrite app_nil_r. reflexivity. }
  destruct (tool_calls resp) as [|tc0 tcs0] eqn:Etc.
  - injection H as <- <- <-. split; [reflexivity |].
    unfold records_match. rewrite Eall, app_nil_r. split; assumption.
  - destruct (process_tool_calls parse call reg (tc0 :: tcs0) _) as [q|[e q]] eqn:Ep;
      [| discriminate].
    apply (IH q c recs qs'); [| exact H].
    destruct (process_ok_shape reg _ _ _ Ep) as [[ts [Em Ets]] [Ee Ef]].
    unfold records_match.
    rewrite Em, all_calls_app, Eall, (all_calls_tool_turns ts Ets), app_nil_r, Ee.
    change (tool_executions (add_message (MAssistant resp) qs)) with (tool_executions qs).
    split; [rewrite He, requested_app; reflexivity |].
    rewrite !map_app, Hf, Ef. reflexivity.
Qed.

(** A gateway that keeps requesting calls that go through is never left. *)
Lemma loop_runs_forever reg tools :
  (forall qs, exists resp qs',
     gw (messages qs) tools = inl resp /\ tool_calls resp <> [] /\
     process_tool_calls parse call reg (tool_calls resp) (add_message (MAssistant resp) qs) =
       inl qs') ->
  forall fuel qs, agentic_loop parse gw call reg tools fuel qs = None.
Proof.
  intros Hgw fuel. induction fuel as [|f IH]; intros qs; [reflexivity |].
  cbn -[process_tool_calls].
  destruct (Hgw qs) as [resp [qs' [Eg [Hne Ep]]]]. rewrite Eg.
  destruct (tool_calls resp) as [|tc tcs] eqn:Etc; [contradiction |].
  rewrite Ep. apply IH.
Qed.

End WithOracles.

End Loop.

(** ** Configuration names and the connection attempts of [connect_all_async] *)

Module Configs.
Import Registry Sessions.

Lemma nodup_map_filter {A B} (g : A -> B) (f : A -> bool) (l : list A) :
  NoDup (map g l) -> NoDup (map g (filter f l)).
Proof.
  induction l as [|a l IH]; simpl; intros H; [constructor |].
  inversion H as [|? ? Hnin Hn]; subst.
  destruct (f a) eqn:Ef; simpl; [| auto].
  constructor; [| auto].
  intros Hin. apply Hnin. apply in_map_iff in Hin. destruct Hin as [x [Ex Hx]].
  apply filter_In in Hx. apply in_map_iff. exists x; split; [exact Ex | apply Hx].
Qed.

Lemma nodup_snoc (x : string) (l : list string) :
  NoDup l -> ~ In x l -> NoDup (l ++ [x]).
Proof.
  induction l as [|y l IH]; simpl; intros Hn Hx.
  - constructor; [simpl; tauto | constructor].
  - inversion Hn as [|? ? Hy Hl]; subst. constructor.
    + rewrite in_app_iff. simpl. intros [H|[H|[]]]; [contradiction | apply Hx; left; symmetry; exact H].
    + apply IH; [exact Hl | intros H; apply Hx; right; exact H].
Qed.

Lemma connect_async_configs pending outcome cfg st :
  server_configs (run_state (connect_server_async pending outcome cfg st)) = server_configs st \/
  server_configs (run_state (connect_server_async pending outcome cfg st)) =
    set_connected_flag (cfg_name cfg) true (server_configs st).
Proof.
  destruct pending; [left; reflexivity |].
  destruct outcome as [tools|msg|msg|]; [right | left; reflexivity ..].
  exact (proj2 (proj2 (connect_ok_fields tools cfg st))).
Qed.

Lemma connect_async_trace pending outcome cfg st :
  trace (run_state (connect_server_async pending outcome cfg st)) =
  trace st ++ [EvConnecting (cfg_name cfg)].
Proof.
  destruct pending; [reflexivity |].
  destruct outcome; simpl; [destruct (mem _ _) | | |]; reflexivity.
Qed.

Lemma names_connect_async pending outcome cfg st :
  map cfg_name (server_configs (run_state (connect_server_async pending outcome cfg st))) =
  map cfg_name (server_configs st).
Proof.
  destruct (connect_async_configs pending outcome cfg st) as [E|E]; rewrite E;
    [reflexivity | apply names_set_connected_flag].
Qed.

Lemma disconnect_configs ce n st :
  server_configs (snd (disconnect_server_async ce n st)) = server_configs st \/
  server_configs (snd (disconnect_server_async ce n st)) =
    set_connected_flag n false (server_configs st).
Proof.
  destruct (dict_get n (servers st)) as [i|] eqn:E;
    [| left; unfold disconnect_server_async; rewrite E; reflexivity].
  destruct ce as [msg|]; [left; unfold disconnect_server_async; rewrite E; reflexivity |].
  right. exact (proj2 (proj2 (disconnect_ok_fields n st i E))).
Qed.

Lemma names_disconnect ce n st :
  map cfg_name (server_configs (snd (disconnect_server_async ce n st))) =
  map cfg_name (server_configs st).
Proof.
  destruct (disconnect_configs ce n st) as [E|E]; rewrite E;
    [reflexivity | apply names_set_connected_flag].
Qed.

Lemma exec_op_names o st :
  NoDup (map cfg_name (server_configs st)) -> NoDup (map cfg_name (server_configs (exec_op o st))).
Proof.
  intros H. destruct o as [n cmd args|n it outcome|n it ce|n it ce|it k s outcome];
    unfold exec_op.
  - unfold add_server.
    destruct (String.eqb n "" || String.eqb cmd ""); [exact H |].
    destruct (existsb (fun s => String.eqb (cfg_name s) n) (server_configs st)) eqn:E;
      [exact H |].
    simpl. rewrite map_app. simpl. apply nodup_snoc; [exact H |].
    intros Hin. apply in_map_iff in Hin. destruct Hin as [c [Ec Hc]].
    assert (Ex : existsb (fun s => String.eqb (cfg_name s) n) (server_configs st) = true)
      by (apply existsb_exists; exists c; split; [exact Hc | apply String.eqb_eq; exact Ec]).
    congruence.
  - rewrite Tasks.connect_server_state.
    destruct (find _ _) as [cfg|]; [destruct (String.eqb n "") |];
      [exact H | rewrite names_connect_async; exact H | exact H].
  - rewrite Tasks.disconnect_server_state, names_disconnect. exact H.
  - rewrite Tasks.remove_server_state. cbv zeta.
    set (st1 := emit _ _).
    assert (H1 : NoDup (map cfg_name (server_configs st1))) by (apply nodup_map_filter; exact H).
    destruct (dict_get n (servers st1)); [| exact H1].
    rewrite names_disconnect. exact H1.
  - rewrite Tasks.connect_state.
    apply (Tasks.connect_all_preserves (fun st => NoDup (map cfg_name (server_configs st))));
      [| | exact H].
    + intros p o' cfg st' _ H'. rewrite names_connect_async. exact H'.
    + intros script st' _ _. simpl. constructor; [simpl; tauto | constructor].
Qed.

Lemma run_ops_names os :
  forall st, NoDup (map cfg_name (server_configs st)) ->
             NoDup (map cfg_name (server_configs (run_ops os st))).
Proof.
  induction os as [|o os IH]; intros st H; simpl; [exact H |].
  apply IH. apply exec_op_names; exact H.
Qed.

Lemma set_flag_app n b l1 l2 :
  set_connected_flag n b (l1 ++ l2) = set_connected_flag n b l1 ++ set_connected_flag n b l2.
Proof. apply map_app. Qed.

Lemma name_after_attempt outcome c : cfg_name (after_attempt outcome c) = cfg_name c.
Proof. unfold after_attempt. destruct (connected c); [| destruct (outcome _)]; reflexivity. Qed.

(** An attempt without a pending cancellation whose outcome leaves none
    behind returns, and leaves none. *)
Lemma clean_attempt outcome cfg st :
  clean_outcome outcome = true ->
  exists res, run_end (connect_server_async false outcome cfg st) = Returned res /\
              pending_cancel (connect_server_async false outcome cfg st) = false.
Proof.
  destruct outcome; simpl; intros H; try discriminate H; eexists; split; reflexivity.
Qed.

(** The loop of [connect_all_async] from position [length l1] on, when no
    attempt leaves a cancellation behind: one attempt per unflagged
    configuration of [l2], each of which only sets its own flag (names are
    unique), and the loop returns. *)
Lemma connect_each_attempts outcome remaining :
  (forall n, clean_outcome (outcome n) = true) ->
  forall l1 l2 st results,
  server_configs st = l1 ++ l2 -> List.length l2 = remaining ->
  NoDup (map cfg_name (l1 ++ l2)) ->
  let r := connect_each outcome (List.length l1) remaining false st results in
  (exists res, run_end r = Returned res) /\ pending_cancel r = false /\
  trace (run_state r) = trace st ++ pending_attempts l2 /\
  server_configs (run_state r) = l1 ++ map (after_attempt outcome) l2.
Proof.
  intros Hclean.
  induction remaining as [|r IH]; intros l1 l2 st results Ec Hl Hn.
  - destruct l2; [| discriminate]. simpl. rewrite !app_nil_r in *.
    split; [eexists; reflexivity |]. split; [reflexivity |]. split; [reflexivity | exact Ec].
  - destruct l2 as [|cfg l2]; [discriminate |]. injection Hl as Hl.
    assert (En : nth_error (server_configs st) (List.length l1) = Some cfg).
    { rewrite Ec, nth_error_app2 by lia. rewrite Nat.sub_diag. reflexivity. }
    assert (Hfresh : ~ In (cfg_name cfg) (map cfg_name l1 ++ map cfg_name l2)).
    { rewrite map_app in Hn. simpl in Hn. apply NoDup_remove_2 in Hn. exact Hn. }
    assert (Hnd : NoDup (map cfg_name ((l1 ++ [after_attempt outcome cfg]) ++ l2))).
    { rewrite <- app_assoc, !map_app. simpl. rewrite name_after_attempt.
      rewrite map_app in Hn. exact Hn. }
    assert (Hlen : S (List.length l1) = List.length (l1 ++ [after_attempt outcome cfg]))
      by (rewrite length_app; simpl; lia).
    cbn [connect_each]. rewrite En.
    destruct (connected cfg) eqn:Hc.
    + assert (Ea : after_attempt outcome cfg = cfg)
        by (unfold after_attempt; rewrite Hc; reflexivity).
      rewrite Hlen.
      destruct (IH (l1 ++ [after_attempt outcome cfg]) l2 st results) as (Hr & Hp & Et & Ecf);
        [rewrite Ea, Ec, <- app_assoc; reflexivity | exact Hl | exact Hnd |].
      split; [exact Hr |]. split; [exact Hp |].
      rewrite Et, Ecf, <- app_assoc.
      unfold pending_attempts. cbn. rewrite Hc. split; reflexivity.
    + assert (Et' := connect_async_trace false (outcome (cfg_name cfg)) cfg st).
      assert (Ec' : server_configs (run_state (connect_server_async false (outcome (cfg_name cfg)) cfg st)) =
                    (l1 ++ [after_attempt outcome cfg]) ++ l2).
      { unfold after_attempt. rewrite Hc.
        destruct (outcome (cfg_name cfg)) as [tools|msg|msg|] eqn:Eo.
        - rewrite (proj2 (proj2 (connect_ok_fields tools cfg st))), Ec.
          change (l1 ++ cfg :: l2) with (l1 ++ [cfg] ++ l2).
          rewrite !set_flag_app, (Removal.set_connected_flag_absent _ _ l1),
            (Removal.set_connected_flag_absent _ _ l2)
            by (intros Hx; apply Hfresh; apply in_or_app; auto).
          rewrite <- app_assoc. unfold set_connected_flag at 1. simpl.
          rewrite String.eqb_refl. reflexivity.
        - simpl. rewrite Ec, <- app_assoc. reflexivity.
        - simpl. rewrite Ec, <- app_assoc. reflexivity.
        - simpl. rewrite Ec, <- app_assoc. reflexivity. }
      destruct (clean_attempt (outcome (cfg_name cfg)) cfg st (Hclean _)) as [res [Er Ep]].
      revert Er Ep Et' Ec'.
      destruct (connect_server_async false (outcome (cfg_name cfg)) cfg st) as [e p st'].
      cbn [run_end pending_cancel run_state]. intros -> -> Et' Ec'.
      rewrite Hlen.
      destruct (IH (l1 ++ [after_attempt outcome cfg]) l2 st' (results ++ [res]) Ec' Hl Hnd)
        as (Hr & Hp & Et & Ecf).
      split; [exact Hr |]. split; [exact Hp |].
      rewrite Et, Ecf, Et', <- !app_assoc.
      unfold pending_attempts. cbn. rewrite Hc. split; reflexivity.
Qed.

End Configs.

(** ** Live sessions: appending, replacing and reading back *)

Module Live.
Import Registry.

Lemma dict_set_absent {A} (k : string) (v : A) (d : list (string * A)) :
  ~ In k (map fst d) -> dict_set k v d = d ++ [(k, v)].
Proof.
  induction d as [|[k' v'] d IH]; simpl; intros Hn; [reflexivity |].
  destruct (String.eqb k k') eqn:E.
  - apply String.eqb_eq in E. exfalso. apply Hn. left. symmetry. exact E.
  - f_equal. apply IH. intros H. apply Hn. right. exact H.
Qed.

Lemma dict_del_snoc {A} (k : string) (v : A) (d : list (string * A)) :
  ~ In k (map fst d) -> dict_del k (d ++ [(k, v)]) = d.
Proof.
  induction d as [|[k' v'] d IH]; simpl; intros Hn; [rewrite String.eqb_refl; reflexivity |].
  destruct (String.eqb k k') eqn:E.
  - apply String.eqb_eq in E. exfalso. apply Hn. left. symmetry. exact E.
  - f_equal. apply IH. intros H. apply Hn. right. exact H.
Qed.

Lemma dict_get_set_same {A} (k : string) (v : A) (d : list (string * A)) :
  dict_get k (dict_set k v d) = Some v.
Proof.
  induction d as [|[k' v'] d IH]; simpl; [rewrite String.eqb_refl; reflexivity |].
  destruct (String.eqb k k') eqn:E; simpl; [rewrite String.eqb_refl; reflexivity |].
  rewrite E. exact IH.
Qed.

Lemma dict_get_set_other {A} (k m : string) (v : A) (d : list (string * A)) :
  m <> k -> dict_get m (dict_set k v d) = dict_get m d.
Proof.
  intros Hne. induction d as [|[k' v'] d IH]; simpl.
  - destruct (String.eqb m k) eqn:E; [apply String.eqb_eq in E; contradiction | reflexivity].
  - destruct (String.eqb k k') eqn:E; simpl.
    + apply String.eqb_eq in E; subst.
      destruct (String.eqb m k') eqn:E'; [apply String.eqb_eq in E'; contradiction | reflexivity].
    + rewrite IH. reflexivity.
Qed.

Lemma keys_dict_set_present {A} (k : string) (v : A) (d : list (string * A)) :
  In k (map fst d) -> map fst (dict_set k v d) = map fst d.
Proof.
  induction d as [|[k' v'] d IH]; simpl; intros Hin; [contradiction |].
  destruct (String.eqb k k') eqn:E; simpl.
  - apply String.eqb_eq in E; subst. reflexivity.
  - apply String.eqb_neq in E. f_equal. apply IH.
    destruct Hin as [H|H]; [congruence | exact H].
Qed.

Lemma dict_get_nodup {A} (k : string) (v : A) (d : list (string * A)) :
  NoDup (map fst d) -> In (k, v) d -> dict_get k d = Some v.
Proof.
  induction d as [|[k' v'] d IH]; simpl; intros Hn Hin; [contradiction |].
  inversion Hn as [|? ? Hnin Hn']; subst.
  destruct Hin as [E|Hin].
  - injection E as <- <-. rewrite String.eqb_refl. reflexivity.
  - destruct (String.eqb k k') eqn:E.
    + apply String.eqb_eq in E; subst. exfalso. apply Hnin.
      apply (in_map fst) in Hin. exact Hin.
    + apply IH; assumption.
Qed.

Lemma list_remove_snoc (x : string) (l : list string) :
  ~ In x l -> list_remove x (l ++ [x]) = l.
Proof.
  induction l as [|y l IH]; simpl; intros Hn; [rewrite String.eqb_refl; reflexivity |].
  destruct (String.eqb x y) eqn:E.
  - apply String.eqb_eq in E. exfalso. apply Hn. left. symmetry. exact E.
  - f_equal. apply IH. intros H. apply Hn. right. exact H.
Qed.

Lemma mem_false (x : string) (l : list string) : ~ In x l -> mem x l = false.
Proof.
  intros Hn. destruct (mem x l) eqn:E; [| reflexivity].
  apply mem_in in E. contradiction.
Qed.

Lemma combined_in t s :
  In t (combined_tools s) ->
  exists sn i, In (sn, i) s /\ In t (map (stamp sn) (info_tools i)).
Proof.
  unfold combined_tools. rewrite in_flat_map. intros [[m j] [Hin Ht]].
  exists m, j. split; assumption.
Qed.

Lemma length_combined s :
  List.length (combined_tools s) = list_sum (map (fun p => List.length (info_tools (snd p))) s).
Proof.
  induction s as [|[m i] s IH]; [reflexivity |].
  unfold combined_tools in *. simpl. rewrite length_app, length_map, IH. reflexivity.
Qed.

Lemma nodup_same_length (l1 l2 : list string) :
  NoDup l1 -> NoDup l2 -> (forall x, In x l1 <-> In x l2) -> List.length l1 = List.length l2.
Proof.
  intros H1 H2 H. apply Nat.le_antisymm; apply NoDup_incl_length; try assumption;
    intros x Hx; apply H; exact Hx.
Qed.

(** A tool found in the combined list of a reachable state belongs to a
    live session under its stamped server name. *)
Lemma resolve_live os x t :
  resolve_tool (available_tools (run_ops os initial_state)) x = Some t ->
  tool_name t = x /\
  exists sn i, server_name t = Some sn /\
    dict_get sn (servers (run_ops os initial_state)) = Some i /\
    In x (map tool_name (info_tools i)).
Proof.
  intros H. unfold resolve_tool in H.
  destruct (find_some _ _ H) as [Hin Hx]. apply String.eqb_eq in Hx.
  rewrite (Runs.run_ops_consistent os initial_state eq_refl) in Hin.
  destruct (Runs.run_ops_tracked os initial_state Runs.initial_tracked) as [Hk _].
  destruct (combined_in _ _ Hin) as [sn [i [Hsi Ht]]].
  apply in_map_iff in Ht. destruct Ht as [t0 [<- Ht0]].
  split; [exact Hx |].
  exists sn, i. split; [reflexivity |]. split; [apply dict_get_nodup; assumption |].
  rewrite <- Hx. change (tool_name (stamp sn t0)) with (tool_name t0).
  apply in_map. exact Ht0.
Qed.

End Live.

(** ** Where the errors of a query come from *)

Module Failures.

Section WithOracles.
Context {Args : Type} (parse : string -> Args + string)
        (gw : list message -> list tool_schema -> response_message + string)
        (call : string -> string -> Args -> string + string).

Lemma process_errors reg tcs :
  (forall x t, resolve_tool (available_tools reg) x = Some t ->
     exists sn i, server_name t = Some sn /\ dict_get sn (servers reg) = Some i) ->
  forall qs e q, process_tool_calls parse call reg tcs qs = inr (e, q) ->
  (exists s, parse s = inr e) \/ (exists sn tn a, call sn tn a = inr e).
Proof.
  intros Hr. induction tcs as [|tc tcs IH]; intros qs e q H; simpl in H; [discriminate |].
  destruct (parse (arguments tc)) as [a|e'] eqn:Ep;
    [| injection H as <- _; left; exists (arguments tc); exact Ep].
  destruct (resolve_tool (available_tools reg) (fname tc)) as [t|] eqn:Er;
    [| exact (IH _ _ _ H)].
  destruct (Hr _ _ Er) as [sn [i [Es Ed]]]. rewrite Es, Ed in H.
  destruct (call sn (fname tc) a) as [r|e'] eqn:Ec;
    [exact (IH _ _ _ H) | injection H as <- _; right; exists sn, (fname tc), a; exact Ec].
Qed.

Lemma loop_errors reg tools :
  (forall x t, resolve_tool (available_tools reg) x = Some t ->
     exists sn i, server_name t = Some sn /\ dict_get sn (servers reg) = Some i) ->
  forall fuel qs e q, agentic_loop parse gw call reg tools fuel qs = Some (QError e, q) ->
  external_error parse gw call e.
Proof.
  intros Hr fuel. induction fuel as [|f IH]; intros qs e q H; cbn -[process_tool_calls] in H;
    [discriminate |].
  destruct (gw (messages qs) tools) as [resp|e'] eqn:Eg;
    [| injection H as <- _; left; exists (messages qs), tools; exact Eg].
  destruct (tool_calls resp) as [|tc0 tcs0]; [discriminate |].
  destruct (process_tool_calls parse call reg (tc0 :: tcs0) _) as [q'|[e' q']] eqn:Ep;
    [exact (IH _ _ _ H) |].
  injection H as <- _. right. exact (process_errors reg _ Hr _ _ _ Ep).
Qed.

End WithOracles.

End Failures.

(** ** The command-line client *)

Module CliLoop.

Section WithOracles.
Context {Args : Type} (parse : string -> Args + string)
        (gw : list message -> list tool_schema -> response_message + string)
        (call : string -> Args -> string + string).

Lemma cli_ok_shape tcs :
  forall cs cs', cli_tool_calls parse call tcs cs = inl cs' ->
  (exists ts, cli_messages cs' = cli_messages cs ++ ts /\ Forall is_tool_turn ts) /\
  cli_calls cs' = cli_calls cs ++ requested parse tcs /\
  map fst (requested parse tcs) = map fname tcs.
Proof.
  induction tcs as [|tc tcs IH]; intros cs cs' H; simpl in H.
  - injection H as <-. split; [exists []; split; [symmetry; apply app_nil_r | constructor] |].
    split; [symmetry; apply app_nil_r | reflexivity].
  - unfold requested at 1 2. simpl. fold (requested parse tcs).
    destruct (parse (arguments tc)) as [a|e]; [| discriminate].
    destruct (call (fname tc) a) as [r|e]; [| discriminate].
    destruct (IH _ _ H) as [[ts [Em Ets]] [Ee Ef]]. simpl in Em, Ee.
    split; [exists (MTool (tc_id tc) (fname tc) r :: ts); split;
            [rewrite Em, <- app_assoc; reflexivity | constructor; [exact I | exact Ets]] |].
    split; [rewrite Ee, <- app_assoc; reflexivity | simpl; f_equal; exact Ef].
Qed.

Lemma cli_loop_calls tools fuel :
  forall cs c cs',
  cli_calls cs = requested parse (all_calls (cli_messages cs)) /\
  map fst (cli_calls cs) = map fname (all_calls (cli_messages cs)) ->
  cli_loop parse gw call tools fuel cs = Some (CliReturn c, cs') ->
  cli_calls cs' = requested parse (all_calls (cli_messages cs')) /\
  map fst (cli_calls cs') = map fname (all_calls (cli_messages cs')).
Proof.
  induction fuel as [|f IH]; intros cs c cs' [He Hf] H; cbn -[cli_tool_calls] in H;
    [discriminate |].
  destruct (gw (cli_messages cs) tools) as [resp|e]; [| discriminate].
  assert (Eall : all_calls (cli_messages cs ++ [MAssistant resp]) =
                 all_calls (cli_messages cs) ++ tool_calls resp).
  { rewrite Loop.all_calls_app. simpl. rewrite app_nil_r. reflexivity. }
  destruct (tool_calls resp) as [|tc0 tcs0] eqn:Etc.
  - injection H as <- <-. simpl. rewrite Eall, app_nil_r. split; assumption.
  - destruct (cli_tool_calls parse call (tc0 :: tcs0) _) as [q|[e q]] eqn:Ep; [| discriminate].
    apply (IH q c cs'); [| exact H].
    destruct (cli_ok_shape _ _ _ Ep) as [[ts [Em Ets]] [Ee Ef]].
    cbn [cli_messages cli_calls] in Em, Ee.
    rewrite Em, Loop.all_calls_app, Eall, (Loop.all_calls_tool_turns ts Ets), app_nil_r, Ee.
    split; [rewrite He, Loop.requested_app; reflexivity |].
    rewrite !map_app, Hf, Ef. reflexivity.
Qed.

End WithOracles.

End CliLoop.

(** * Claims *)

(** C4: for every sequence of add/connect/connect-all/disconnect/remove
    requests, whatever each connection attempt and each close gives, the
    combined tool list is exactly the tools of the servers in the
    live-session map, each stamped with its owning server, in the map's
    order: [rebuild_tools_list] runs inside every connect and disconnect
    that changes the map, before it returns. *)
Theorem available_tools_follow_sessions (os : list op) :
  available_tools (run_ops os initial_state) =
  combined_tools (servers (run_ops os initial_state)).
Proof. apply Runs.run_ops_consistent. reflexivity. Qed.

(** C10 (failing input [close_fails_ops]): in every run of registry
    requests a name is a key of the live-session map iff it is in
    [connected_servers]; but [remove_server] deletes the configuration of
    [a] and ignores the error of the disconnect whose close raises, so the
    session of [a] stays; once [a] is configured again and [b] connected,
    the live key [a] has a configuration with [connected = false]. *)
Theorem close_error_leaves_unflagged_session :
  (forall os n, In n (map fst (servers (run_ops os initial_state))) <->
                In n (connected_servers (run_ops os initial_state))) /\
  In (mkConfig "a" "python3" ["a.py"] false)
     (server_configs (run_ops close_fails_ops initial_state)) /\
  In "a" (map fst (servers (run_ops close_fails_ops initial_state))) /\
  ~ sessions_consistent (run_ops close_fails_ops initial_state).
Proof.
  split; [intros os; apply (Runs.run_ops_tracked os initial_state Runs.initial_tracked) |].
  assert (Hc : In (mkConfig "a" "python3" ["a.py"] false)
                 (server_configs (run_ops close_fails_ops initial_state)))
    by (simpl; auto).
  assert (Hk : In "a" (map fst (servers (run_ops close_fails_ops initial_state))))
    by (simpl; auto).
  split; [exact Hc |]. split; [exact Hk |].
  intros [_ H2]. discriminate (H2 _ Hc Hk).
Qed.

(** C3 counterexample: with [s1] and [s2] both exposing [echo], connected
    in that order, the combined list keeps both [echo] entries and the
    lookup of the dispatch loop resolves [echo] to [s1], the earlier
    server. *)
Lemma duplicate_tool_cex :
  count_named "echo" (available_tools (run_ops duplicate_ops initial_state)) = 2 /\
  option_map server_name
    (resolve_tool (available_tools (run_ops duplicate_ops initial_state)) "echo") =
  Some (Some "s1").
Proof. split; reflexivity. Qed.

(** C3 (amended): in every reachable registry state, the combined list
    keeps one entry per (server, tool) pair, so a name exposed by several
    servers appears once per server; and the dispatch loop's lookup of a
    name resolves to the first server of the live-session map (the one
    inserted earliest) that exposes it. *)
Theorem duplicate_tool_first_server (os : list op) (x : string)
    pre (n : string) (i : server_info) post :
  servers (run_ops os initial_state) = pre ++ (n, i) :: post ->
  (forall m j, In (m, j) pre -> ~ In x (map tool_name (info_tools j))) ->
  In x (map tool_name (info_tools i)) ->
  option_map server_name (resolve_tool (available_tools (run_ops os initial_state)) x) =
    Some (Some n) /\
  count_named x (available_tools (run_ops os initial_state)) =
    list_sum (map (fun '(_, j) => count_named x (info_tools j))
                  (servers (run_ops os initial_state))).
Proof.
  intros Es Hpre Hi.
  rewrite (Runs.run_ops_consistent os initial_state eq_refl).
  split; [rewrite Es; apply Routing.resolve_first_owner; assumption |].
  apply Routing.count_combined.
Qed.

Lemma duplicate_tool_first_server_witness :
  option_map server_name
    (resolve_tool (available_tools (run_ops duplicate_ops initial_state)) "echo") =
    Some (Some "s1") /\
  count_named "echo" (available_tools (run_ops duplicate_ops initial_state)) = 2.
Proof.
  destruct (duplicate_tool_first_server duplicate_ops "echo" []
              "s1" (mkInfo [echo_s1]) [("s2", mkInfo [echo_s2])])
    as [H1 H2]; [reflexivity | simpl; tauto | simpl; auto |].
  split; [exact H1 | rewrite H2; reflexivity].
Defined.

(** C5 (failing input): [a] is connected through [/servers/connect] and
    removed through [/servers/remove], where closing its exit stack raises
    the anyio error.  The route has deleted the configuration before the
    disconnect, ignores the error of the disconnect and answers success,
    while the session of [a] stays in the map and in [connected_servers]
    and its tool in the combined list; [/servers/disconnect] of the same
    name answers that error. *)
Theorem remove_close_error_keeps_session :
  let st := run_ops one_server_ops initial_state in
  let r := remove_server true (Some cancel_scope_msg) "a" st in
  fst r = RSuccess "Server a removed" /\
  server_configs (snd r) = [] /\
  map fst (servers (snd r)) = ["a"] /\ connected_servers (snd r) = ["a"] /\
  available_tools (snd r) = [stamp "a" echo_s1] /\
  trace (snd r) = [EvConnecting "a"; EvConfigsRemoved "a"] /\
  disconnect_server true (Some cancel_scope_msg) "a" st = (RError cancel_scope_msg, st).
Proof. repeat split. Qed.

(** C6 counterexample: with the configurations [a] and [b], removing the
    never configured name [ghost] answers success, not an error. *)
Lemma remove_absent_cex :
  remove_server true None "ghost" (run_ops two_configs_ops initial_state) =
  (RSuccess "Server ghost removed",
   emit (EvConfigsRemoved "ghost") (run_ops two_configs_ops initial_state)).
Proof. reflexivity. Qed.

(** C6 (amended): for a name absent from the configurations,
    [/servers/remove] leaves the configuration list unchanged and never
    answers a "not found" error: it answers success, except when the name
    still has a live session and its disconnect does not end within the 5
    seconds, where [TimeoutError] escapes the route. *)
Theorem remove_absent_config (in_time : bool) (ce : option string) (n : string) (st : state) :
  ~ In n (map cfg_name (server_configs st)) ->
  server_configs (snd (remove_server in_time ce n st)) = server_configs st /\
  fst (remove_server in_time ce n st) =
    match dict_get n (servers st) with
    | Some _ => if in_time then RSuccess ("Server " ++ n ++ " removed")%string
                else RInternalServerError
    | None => RSuccess ("Server " ++ n ++ " removed")%string
    end.
Proof.
  intros Hn.
  assert (Ef : filter (fun c => negb (String.eqb (cfg_name c) n)) (server_configs st) =
               server_configs st).
  { apply Removal.filter_keep_all. intros c Hc.
    destruct (String.eqb (cfg_name c) n) eqn:E; [| reflexivity].
    apply String.eqb_eq in E. exfalso. apply Hn. rewrite <- E. apply in_map; exact Hc. }
  split.
  - rewrite Tasks.remove_server_state. cbv zeta.
    destruct (dict_get n _).
    + rewrite Removal.disconnect_configs_absent; simpl; rewrite Ef; [reflexivity | exact Hn].
    + simpl. exact Ef.
  - unfold remove_server. cbv zeta. simpl.
    destruct (dict_get n (servers st)); [destruct in_time |]; reflexivity.
Qed.

Lemma remove_absent_config_witness :
  ~ In "ghost" (map cfg_name (server_configs (run_ops two_configs_ops initial_state))) /\
  server_configs (snd (remove_server true None "ghost" (run_ops two_configs_ops initial_state))) =
    [mkConfig "a" "python3" ["a.py"] false; mkConfig "b" "python3" ["b.py"] false] /\
  ~ In "a" (map cfg_name (server_configs (run_ops removed_live_ops initial_state))) /\
  fst (remove_server false (Some cancel_scope_msg) "a" (run_ops removed_live_ops initial_state)) =
    RInternalServerError.
Proof.
  assert (H1 : ~ In "ghost" (map cfg_name (server_configs (run_ops two_configs_ops initial_state))))
    by (simpl; intros [H|[H|[]]]; discriminate).
  assert (H2 : ~ In "a" (map cfg_name (server_configs (run_ops removed_live_ops initial_state))))
    by (simpl; tauto).
  split; [exact H1 |].
  split; [exact (proj1 (remove_absent_config true None "ghost" _ H1)) |].
  split; [exact H2 |].
  exact (proj2 (remove_absent_config false (Some cancel_scope_msg) "a" _ H2)).
Defined.

(** C7 (failing input): launching [a] raises and [b] connects; both are
    attempted, but the reply of [/connect] only lists the servers now
    connected and the tool count: the per-server [results] collected by
    the loop are dropped, so [a]'s failure is not reported.  When instead
    the process of [a] starts and its handshake raises, the task groups
    that attempt left entered cancel [connect_all_async] in the attempt of
    [b]: [b] is not connected and [/connect] answers an error with an
    empty message. *)
Theorem connect_all_drops_results :
  (let st := run_ops missing_a_ops initial_state in
   fst (connect true true "mcp_server.py" a_missing st) = RConnectedAll ["b"] 1 /\
   trace (snd (connect true true "mcp_server.py" a_missing st)) =
     [EvConnecting "a"; EvConnecting "b"] /\
   run_end (connect_each a_missing 0 2 false st []) =
     Returned [RError a_missing_msg; RConnected "b" 1]) /\
  (let st := run_ops two_configs_ops initial_state in
   fst (connect true true "mcp_server.py" a_fails st) = RError "" /\
   trace (snd (connect true true "mcp_server.py" a_fails st)) =
     [EvConnecting "a"; EvConnecting "b"] /\
   servers (snd (connect true true "mcp_server.py" a_fails st)) = [] /\
   run_end (connect_each a_fails 0 2 false st []) = Cancelled).
Proof. split; repeat split. Qed.

(** C1 counterexample: the payload of the only call is malformed; the query
    ends with the parse error, no tool turn is added, and the second round
    trip (where the gateway would answer "done") never happens. *)
Lemma arg_parse_error_cex :
  process_query_async demo_parse gw_bad_args demo_call
    (run_ops one_server_ops initial_state) "q" 5 =
  Some (QError "'{' was never closed",
        mkQ [MUser "q"; MAssistant (mkResponse None [mkCall "call_1" "echo" "{"])] [] []).
Proof. reflexivity. Qed.

(** C1 (amended): when the payload of a requested call fails to parse, the
    whole query ends with [QError] carrying the text of the parse error;
    the later calls of that response are not processed and the gateway is
    not called again. *)
Theorem arg_parse_error_ends_query {Args} (parse : string -> Args + string) gw call
    (reg : state) tools (f : nat) (qs : qstate Args) resp pre tc post e qs1 :
  gw (messages qs) tools = inl resp ->
  tool_calls resp = pre ++ tc :: post ->
  process_tool_calls parse call reg pre (add_message (MAssistant resp) qs) = inl qs1 ->
  parse (arguments tc) = inr e ->
  agentic_loop parse gw call reg tools (S f) qs = Some (QError e, qs1).
Proof.
  intros Eg Etc Epre Eparse.
  cbn -[process_tool_calls]. rewrite Eg.
  assert (Ep : process_tool_calls parse call reg (tool_calls resp)
                 (add_message (MAssistant resp) qs) = inr (e, qs1)).
  { rewrite Etc, Loop.process_app, Epre. simpl. rewrite Eparse. reflexivity. }
  destruct (tool_calls resp) as [|tc0 tcs0];
    [destruct pre; discriminate | rewrite Ep; reflexivity].
Qed.

Lemma arg_parse_error_ends_query_witness :
  agentic_loop demo_parse gw_bad_args demo_call (run_ops one_server_ops initial_state) []
    4 (initial_qstate "q") =
  Some (QError "'{' was never closed",
        mkQ [MUser "q"; MAssistant (mkResponse None [mkCall "call_1" "echo" "{"])] [] []).
Proof.
  apply (arg_parse_error_ends_query demo_parse gw_bad_args demo_call _ [] 3 _
           (mkResponse None [mkCall "call_1" "echo" "{"]) [] (mkCall "call_1" "echo" "{") []);
    reflexivity.
Defined.

(** C2 counterexample: no bound on the round trips exists; with a gateway
    that always asks for an unknown tool, the loop is still running after
    any number of them. *)
Lemma no_iteration_cap_cex :
  ~ (exists N, process_query_async demo_parse gw_forever demo_call
                 (run_ops one_server_ops initial_state) "q" N <> None).
Proof.
  intros [N HN]. apply HN. unfold process_query_async.
  apply Loop.loop_runs_forever.
  intros qs. eexists; eexists; split; [reflexivity | split; [discriminate | reflexivity]].
Qed.

(** C2 (amended): the loop has no iteration cap; it is left only through a
    response without tool calls or a raised exception, so a gateway that
    keeps requesting tool calls that go through keeps the query running
    for ever. *)
Theorem no_iteration_cap {Args} (parse : string -> Args + string) gw call (reg : state) :
  (forall qs, exists resp qs',
     gw (messages qs) (map to_schema (available_tools reg)) = inl resp /\
     tool_calls resp <> [] /\
     process_tool_calls parse call reg (tool_calls resp) (add_message (MAssistant resp) qs) =
       inl qs') ->
  forall query fuel, process_query_async parse gw call reg query fuel = None.
Proof.
  intros Hgw query fuel. unfold process_query_async.
  apply Loop.loop_runs_forever. exact Hgw.
Qed.

Lemma no_iteration_cap_witness :
  process_query_async demo_parse gw_forever demo_call
    (run_ops one_server_ops initial_state) "q" 50 = None.
Proof.
  apply no_iteration_cap.
  intros qs. eexists; eexists; split; [reflexivity | split; [discriminate | reflexivity]].
Defined.

(** C8 counterexample: a call naming an unknown tool whose payload is
    malformed ends the whole query. *)
Lemma unknown_tool_cex :
  process_query_async demo_parse gw_unknown_bad_args demo_call
    (run_ops one_server_ops initial_state) "q" 5 =
  Some (QError "'{' was never closed",
        mkQ [MUser "q"; MAssistant (mkResponse None [mkCall "call_1" "missing" "{"])] [] []).
Proof. reflexivity. Qed.

(** C8 (amended): when a response requests the calls [pre ++ tc :: post]
    and those of [pre] go through, a call [tc] whose payload parses and
    whose name resolves to no tool of the combined list adds its record
    and a tool turn carrying the "not found" error under its id, invokes
    no session, and the loop goes on with the calls of [post] and then
    with the next round trip, whose transcript carries that tool turn. *)
Theorem unknown_tool_continues {Args} (parse : string -> Args + string) gw call
    (reg : state) tools (f : nat) (qs : qstate Args) resp pre tc post qs1 (a : Args) :
  gw (messages qs) tools = inl resp ->
  tool_calls resp = pre ++ tc :: post ->
  process_tool_calls parse call reg pre (add_message (MAssistant resp) qs) = inl qs1 ->
  parse (arguments tc) = inl a ->
  resolve_tool (available_tools reg) (fname tc) = None ->
  let qs2 := mkQ (messages qs1 ++ [MTool (tc_id tc) (fname tc) (not_found_msg (fname tc))])
                 (tool_executions qs1 ++ [(fname tc, a)]) (session_calls qs1) in
  agentic_loop parse gw call reg tools (S f) qs =
    match process_tool_calls parse call reg post qs2 with
    | inl qs3 => agentic_loop parse gw call reg tools f qs3
    | inr (e, qs3) => Some (QError e, qs3)
    end /\
  (forall qs3, process_tool_calls parse call reg post qs2 = inl qs3 ->
   exists later, messages qs3 =
     messages qs1 ++ MTool (tc_id tc) (fname tc) (not_found_msg (fname tc)) :: later).
Proof.
  intros Eg Etc Epre Ep Er qs2.
  assert (Eall : process_tool_calls parse call reg (tool_calls resp)
                   (add_message (MAssistant resp) qs) =
                 process_tool_calls parse call reg post qs2).
  { rewrite Etc, Loop.process_app, Epre. simpl. rewrite Ep, Er. reflexivity. }
  split.
  - cbn -[process_tool_calls]. rewrite Eg.
    destruct (tool_calls resp) as [|tc0 tcs0]; [destruct pre; discriminate |].
    rewrite Eall. destruct (process_tool_calls parse call reg post qs2) as [q|[e q]]; reflexivity.
  - intros qs3 E3. destruct (Loop.process_ok_shape parse call reg post qs2 qs3 E3) as [[ts [Em _]] _].
    exists ts. rewrite Em. unfold qs2. cbn [messages]. rewrite <- app_assoc. reflexivity.
Qed.

Lemma unknown_tool_continues_witness :
  agentic_loop demo_parse gw_unknown_between demo_call (run_ops one_server_ops initial_state)
    [] 3 (initial_qstate "q") =
  agentic_loop demo_parse gw_unknown_between demo_call (run_ops one_server_ops initial_state)
    [] 2 (mkQ [MUser "q"; MAssistant unknown_between_resp;
               MTool "call_1" "echo" "[TextContent(type='text', text='ok')]";
               MTool "call_2" "missing" "Tool missing not found in any connected server";
               MTool "call_3" "echo" "[TextContent(type='text', text='ok')]"]
              [("echo", 0); ("missing", 0); ("echo", 0)]
              [("a", "echo", 0); ("a", "echo", 0)]).
Proof.
  destruct (unknown_tool_continues demo_parse gw_unknown_between demo_call
              (run_ops one_server_ops initial_state) [] 2 (initial_qstate "q")
              unknown_between_resp [mkCall "call_1" "echo" "{}"] (mkCall "call_2" "missing" "{}")
              [mkCall "call_3" "echo" "{}"]
              (mkQ [MUser "q"; MAssistant unknown_between_resp;
                    MTool "call_1" "echo" "[TextContent(type='text', text='ok')]"]
                   [("echo", 0)] [("a", "echo", 0)]) 0
              eq_refl eq_refl eq_refl eq_refl eq_refl) as [H1 _].
  rewrite H1. reflexivity.
Defined.

(** C9: when a query succeeds, [tool_executions] holds one record (name,
    parsed arguments) per tool call requested in the transcript, in order,
    also for calls whose tool resolved to no server. *)
Theorem tool_executions_one_per_call {Args} (parse : string -> Args + string) gw call
    (reg : state) (query : string) (fuel : nat) c recs (qs' : qstate Args) :
  process_query_async parse gw call reg query fuel = Some (QSuccess c recs, qs') ->
  recs = requested parse (all_calls (messages qs')) /\
  map fst recs = map fname (all_calls (messages qs')).
Proof.
  intros H.
  destruct (Loop.loop_success_records parse gw call reg (map to_schema (available_tools reg)) fuel (initial_qstate query) c recs qs')
    as [-> [He Hf]]; [split; reflexivity | exact H |].
  split; assumption.
Qed.

Lemma tool_executions_one_per_call_witness :
  exists recs (qs' : qstate nat),
    process_query_async demo_parse gw_echo_missing demo_call
      (run_ops one_server_ops initial_state) "q" 5 = Some (QSuccess (Some "done") recs, qs') /\
    recs = requested demo_parse (all_calls (messages qs')) /\
    map fst recs = ["echo"; "missing"].
Proof.
  eexists; eexists; split; [reflexivity |].
  split; [| reflexivity].
  apply (proj1 (tool_executions_one_per_call demo_parse gw_echo_missing demo_call
                  (run_ops one_server_ops initial_state) "q" 5 (Some "done") _ _ eq_refl)).
Defined.

(** * Further properties of the registry, the routes and the clients *)

(** Configuration names stay unique in every reachable state: [add_server]
    refuses a name already configured, and no other operation adds or
    renames a configuration ([connect_all_async] adds [default] only to an
    empty list). *)
Theorem config_names_unique (os : list op) :
  NoDup (map cfg_name (server_configs (run_ops os initial_state))).
Proof. apply Configs.run_ops_names. constructor. Qed.

(** [/servers/connect] with a non-empty name that no configuration carries
    answers "Server not found" and leaves the state as it was, whatever the
    connection would have given and whether it would end in time. *)
Theorem connect_unknown_server (in_time : bool) (outcome : connect_outcome) (n : string)
    (st : state) :
  n <> "" -> ~ In n (map cfg_name (server_configs st)) ->
  connect_server in_time outcome n st = (RError "Server not found", st).
Proof.
  intros Hne Hn. unfold connect_server.
  destruct (String.eqb n "") eqn:E; [apply String.eqb_eq in E; contradiction |].
  destruct (find (fun s => String.eqb (cfg_name s) n) (server_configs st)) as [c|] eqn:Ef;
    [| reflexivity].
  destruct (find_some _ _ Ef) as [Hc Hx]. apply String.eqb_eq in Hx.
  exfalso. apply Hn. rewrite <- Hx. apply in_map. exact Hc.
Qed.

Lemma connect_unknown_server_witness :
  connect_server true (Connected [echo_s1]) "b" (run_ops one_server_ops initial_state) =
    (RError "Server not found", run_ops one_server_ops initial_state).
Proof.
  apply connect_unknown_server; [discriminate | simpl; intros [H|[]]; discriminate].
Defined.

(** [disconnect_server_async] of a name that has no live session answers
    "Server not connected" and leaves the state as it was, whatever closing
    would have given: nothing is closed. *)
Theorem disconnect_not_connected (ce : option string) (n : string) (st : state) :
  ~ In n (map fst (servers st)) ->
  disconnect_server_async ce n st = (RError "Server not connected", st).
Proof.
  intros Hn. unfold disconnect_server_async.
  destruct (dict_get n (servers st)) eqn:E; [| reflexivity].
  exfalso. apply Hn. apply Registry.dict_get_in. rewrite E. discriminate.
Qed.

Lemma disconnect_not_connected_witness :
  disconnect_server_async None "b" (run_ops one_server_ops initial_state) =
    (RError "Server not connected", run_ops one_server_ops initial_state).
Proof.
  apply disconnect_not_connected. simpl. intros [H|[]]. discriminate.
Defined.

(** Connecting a server with no live session appends it last to the
    session map and to [connected_servers], and appends its tools, stamped
    with its name, after the combined list; disconnecting it again with a
    successful close restores the map, [connected_servers] and the combined
    list, and the only effects left are the connection attempt and the
    close. *)
Theorem connect_new_then_disconnect (os : list op) (cfg : server_config) (tools : list tool) :
  ~ In (cfg_name cfg) (map fst (servers (run_ops os initial_state))) ->
  let st := run_ops os initial_state in
  let n := cfg_name cfg in
  let st1 := run_state (connect_server_async false (Connected tools) cfg st) in
  let st2 := snd (disconnect_server_async None n st1) in
  servers st1 = servers st ++ [(n, mkInfo tools)] /\
  connected_servers st1 = connected_servers st ++ [n] /\
  available_tools st1 = available_tools st ++ map (stamp n) tools /\
  servers st2 = servers st /\ connected_servers st2 = connected_servers st /\
  available_tools st2 = available_tools st /\
  trace st2 = trace st ++ [EvConnecting n; EvClosed n].
Proof.
  intros Hn st n st1 st2.
  destruct (Runs.run_ops_tracked os initial_state Runs.initial_tracked) as [Hk [Hc H1]].
  assert (Hcons : tools_consistent (run_ops os initial_state))
    by exact (Runs.run_ops_consistent os initial_state eq_refl).
  fold st in Hk, Hc, H1, Hcons, Hn. fold n in Hn.
  assert (Hnc : ~ In n (connected_servers st)) by (rewrite <- H1; exact Hn).
  destruct (Sessions.connect_ok_fields tools cfg st) as [Es1 [Ec1 _]].
  fold n st1 in Es1, Ec1.
  rewrite (Live.dict_set_absent _ _ _ Hn) in Es1.
  rewrite (Live.mem_false _ _ Hnc) in Ec1.
  assert (Ea1 : available_tools st1 = available_tools st ++ map (stamp n) tools).
  { assert (H := Aggregate.connect_server_async_consistent false (Connected tools) cfg st Hcons).
    fold st1 in H. unfold tools_consistent in H, Hcons.
    rewrite H, Es1, Routing.combined_app, Hcons. f_equal. cbn. apply app_nil_r. }
  assert (E : dict_get n (servers st1) = Some (mkInfo tools)).
  { rewrite Es1. apply Live.dict_get_nodup.
    - rewrite map_app. apply Configs.nodup_snoc; assumption.
    - apply in_or_app. right. left. reflexivity. }
  destruct (Sessions.disconnect_ok_fields n st1 _ E) as [Es2 [Ec2 _]].
  destruct (Removal.disconnect_ok_trace n st1 _ E) as [Et2 Ea2].
  fold st2 in Es2, Ec2, Et2, Ea2.
  assert (Et1 := Configs.connect_async_trace false (Connected tools) cfg st). fold n st1 in Et1.
  split; [exact Es1 |]. split; [exact Ec1 |]. split; [exact Ea1 |].
  split; [rewrite Es2, Es1; apply Live.dict_del_snoc; exact Hn |].
  split.
  { rewrite Ec2, Ec1.
    assert (M : mem n (connected_servers st ++ [n]) = true).
    { apply Registry.mem_in. apply in_or_app. right. left. reflexivity. }
    rewrite M. apply Live.list_remove_snoc. exact Hnc. }
  split; [rewrite Ea2, Es1, (Live.dict_del_snoc _ _ _ Hn); symmetry; exact Hcons |].
  rewrite Et2, Et1, <- app_assoc. reflexivity.
Qed.

Lemma connect_new_then_disconnect_witness :
  ~ In "b" (map fst (servers (run_ops one_server_ops initial_state))) /\
  available_tools (snd (disconnect_server_async None "b"
    (run_state (connect_server_async false (Connected [echo_s2])
                 (mkConfig "b" "python3" ["b.py"] false)
                 (run_ops one_server_ops initial_state))))) =
  available_tools (run_ops one_server_ops initial_state).
Proof.
  assert (Hn : ~ In "b" (map fst (servers (run_ops one_server_ops initial_state))))
    by (simpl; intros [H|[]]; discriminate).
  split; [exact Hn |].
  destruct (connect_new_then_disconnect one_server_ops (mkConfig "b" "python3" ["b.py"] false)
              [echo_s2] Hn) as (_ & _ & _ & _ & _ & H & _).
  exact H.
Defined.

(** Connecting a server that already has a live session replaces its tools
    in place: the keys of the session map keep their order, the other
    sessions and [connected_servers] are unchanged, and the previous session
    is never closed (the only effect is the new connection attempt). *)
Theorem reconnect_in_place (os : list op) (cfg : server_config) (tools : list tool) :
  In (cfg_name cfg) (map fst (servers (run_ops os initial_state))) ->
  let st := run_ops os initial_state in
  let n := cfg_name cfg in
  let st1 := run_state (connect_server_async false (Connected tools) cfg st) in
  map fst (servers st1) = map fst (servers st) /\
  dict_get n (servers st1) = Some (mkInfo tools) /\
  (forall m, m <> n -> dict_get m (servers st1) = dict_get m (servers st)) /\
  connected_servers st1 = connected_servers st /\
  trace st1 = trace st ++ [EvConnecting n].
Proof.
  intros Hn st n st1.
  destruct (Runs.run_ops_tracked os initial_state Runs.initial_tracked) as [Hk [Hc H1]].
  fold st in Hk, Hc, H1, Hn. fold n in Hn.
  destruct (Sessions.connect_ok_fields tools cfg st) as [Es1 [Ec1 _]].
  fold n st1 in Es1, Ec1.
  assert (M : mem n (connected_servers st) = true) by (apply Registry.mem_in; apply H1; exact Hn).
  rewrite M in Ec1.
  assert (Et1 := Configs.connect_async_trace false (Connected tools) cfg st). fold n st1 in Et1.
  split; [rewrite Es1; apply Live.keys_dict_set_present; exact Hn |].
  split; [rewrite Es1; apply Live.dict_get_set_same |].
  split; [intros m Hm; rewrite Es1; apply Live.dict_get_set_other; exact Hm |].
  split; [exact Ec1 | exact Et1].
Qed.

Lemma reconnect_in_place_witness :
  In "a" (map fst (servers (run_ops one_server_ops initial_state))) /\
  connected_servers (run_state (connect_server_async false (Connected [echo_s2])
    (mkConfig "a" "python3" ["a.py"] true) (run_ops one_server_ops initial_state))) =
  connected_servers (run_ops one_server_ops initial_state).
Proof.
  assert (Hn : In "a" (map fst (servers (run_ops one_server_ops initial_state))))
    by (simpl; left; reflexivity).
  split; [exact Hn |].
  destruct (reconnect_in_place one_server_ops (mkConfig "a" "python3" ["a.py"] true)
              [echo_s2] Hn) as (_ & _ & _ & H & _).
  exact H.
Defined.

(** [connect_all_async] with the API key set, when no attempt leaves a
    cancellation behind (each process either fails to launch or completes
    its handshake), makes one connection attempt per configuration whose
    flag is unset, in the order of the configurations (the single
    [default] configuration when none is configured), returns the servers
    connected and the tool count, and afterwards each such configuration
    is flagged connected exactly when its own attempt succeeded; the others
    are left as they were.  Without the key it answers the error and
    changes nothing. *)
Theorem connect_all_attempts (os : list op) (k : bool) (script : string)
    (outcome : string -> connect_outcome) :
  (forall n, clean_outcome (outcome n) = true) ->
  let st := run_ops os initial_state in
  let cs := match server_configs st with [] => [default_server script] | cs => cs end in
  let r := connect_all_async k script outcome st in
  if k then run_end r = Returned (RConnectedAll (connected_servers (run_state r))
                                                (List.length (available_tools (run_state r)))) /\
            pending_cancel r = false /\
            trace (run_state r) = trace st ++ pending_attempts cs /\
            server_configs (run_state r) = map (after_attempt outcome) cs
  else r = mkRun (Returned (RError "OPENAI_API_KEY not found in environment")) false st.
Proof.
  intros Hclean st cs r. destruct k; [| reflexivity].
  assert (Hnd : NoDup (map cfg_name cs)).
  { unfold cs. destruct (server_configs st) as [|c l] eqn:Ec.
    - simpl. constructor; [simpl; tauto | constructor].
    - rewrite <- Ec. apply Configs.run_ops_names. constructor. }
  unfold r, connect_all_async. cbn [negb].
  set (st0 := match server_configs st with [] => _ | _ :: _ => st end).
  assert (Ec0 : server_configs st0 = cs).
  { unfold st0, cs. destruct (server_configs st) eqn:E; [reflexivity | simpl; exact E]. }
  assert (Et0 : trace st0 = trace st) by (unfold st0; destruct (server_configs st); reflexivity).
  destruct (Configs.connect_each_attempts outcome (List.length cs) Hclean [] cs st0 [] Ec0
              eq_refl Hnd) as ([res Hres] & Hp & Et & Ecf).
  change (List.length (@nil server_config)) with 0 in Hres, Hp, Et, Ecf.
  rewrite Ec0. revert Hres Hp Et Ecf.
  destruct (connect_each outcome 0 (List.length cs) false st0 []) as [e p st1].
  cbn [run_end pending_cancel run_state]. intros -> -> Et Ecf. cbn.
  rewrite Et, Et0, Ecf.
  split; [reflexivity |]. split; [reflexivity |]. split; reflexivity.
Qed.

Lemma connect_all_attempts_witness :
  (forall n, clean_outcome (a_missing n) = true) /\
  server_configs (run_state (connect_all_async true "mcp_server.py" a_missing
                               (run_ops missing_a_ops initial_state))) =
    [mkConfig "a" "a-server" [] false; mkConfig "b" "python3" ["b.py"] true].
Proof.
  assert (H : forall n, clean_outcome (a_missing n) = true)
    by (intros n; unfold a_missing; destruct (String.eqb n "a"); reflexivity).
  split; [exact H |].
  exact (proj2 (proj2 (proj2 (connect_all_attempts missing_a_ops true "mcp_server.py"
                                 a_missing H)))).
Defined.

(** [/status] in a reachable state: the number of connected servers it
    reports is the number of live sessions, [connected] tells whether there
    is one, and [tools_count] is the sum of the tool counts of the live
    sessions. *)
Theorem status_counts (os : list op) :
  let st := run_ops os initial_state in
  let s := get_status st in
  List.length (status_connected_servers s) = List.length (servers st) /\
  status_connected s = Nat.ltb 0 (List.length (servers st)) /\
  tools_count s = list_sum (map (fun p => List.length (info_tools (snd p))) (servers st)).
Proof.
  intros st s.
  destruct (Runs.run_ops_tracked os initial_state Runs.initial_tracked) as [Hk [Hc H1]].
  assert (Hcons : tools_consistent (run_ops os initial_state))
    by exact (Runs.run_ops_consistent os initial_state eq_refl).
  fold st in Hk, Hc, H1, Hcons.
  assert (L : List.length (connected_servers st) = List.length (servers st)).
  { rewrite <- (length_map fst (servers st)). symmetry.
    apply Live.nodup_same_length; assumption. }
  unfold s, get_status. cbn [status_connected_servers status_connected tools_count].
  rewrite L. split; [reflexivity |]. split; [reflexivity |].
  unfold tools_consistent in Hcons. rewrite Hcons. apply Live.length_combined.
Qed.

(** Every [call_tool] invocation a batch of tool calls makes, whether the
    batch goes through or raises, is addressed to a live session of the
    registry that exposes the requested tool: with a reachable registry the
    lookup [state.servers[tool_obj.server_name]] never misses. *)
Theorem session_calls_live {Args} (parse : string -> Args + string) call (os : list op)
    (tcs : list tool_call) (qs : qstate Args) :
  exists new,
    session_calls (after_calls (process_tool_calls parse call (run_ops os initial_state) tcs qs)) =
      session_calls qs ++ new /\
    Forall (live_call (run_ops os initial_state)) new.
Proof.
  revert qs. induction tcs as [|tc tcs IH]; intros qs; simpl.
  - exists []. split; [symmetry; apply app_nil_r | constructor].
  - destruct (parse (arguments tc)) as [a|e];
      [| exists []; split; [symmetry; apply app_nil_r | constructor]].
    destruct (resolve_tool (available_tools (run_ops os initial_state)) (fname tc)) as [t|] eqn:Er.
    + destruct (Live.resolve_live os _ _ Er) as [Hx [sn [i [Es [Ed Hin]]]]].
      rewrite Es, Ed.
      assert (Hl : live_call (run_ops os initial_state) (sn, fname tc, a))
        by (exists i; split; assumption).
      destruct (call sn (fname tc) a) as [r|e].
      * match goal with
        | |- context [after_calls (process_tool_calls _ _ _ tcs ?q)] =>
            destruct (IH q) as [nw [E F]]
        end.
        exists ((sn, fname tc, a) :: nw). rewrite E. simpl.
        split; [rewrite <- app_assoc; reflexivity | constructor; assumption].
      * exists [(sn, fname tc, a)]. split; [reflexivity | constructor; [exact Hl | constructor]].
    + match goal with
      | |- context [after_calls (process_tool_calls _ _ _ tcs ?q)] =>
          destruct (IH q) as [nw [E F]]
      end.
      exists nw. rewrite E. split; [reflexivity | exact F].
Qed.

(** A query on a reachable registry fails only with the text of an
    exception raised by an external effect (the completion call, [eval] of
    the arguments, or [call_tool]): it never fails on a tool without a
    server name or on a server missing from the session map. *)
Theorem query_errors_external {Args} (parse : string -> Args + string) gw call
    (os : list op) (query : string) (fuel : nat) (e : string) (q : qstate Args) :
  process_query_async parse gw call (run_ops os initial_state) query fuel = Some (QError e, q) ->
  external_error parse gw call e.
Proof.
  intros H.
  refine (Failures.loop_errors parse gw call _ _ _ fuel _ e q H).
  intros x t Hr. destruct (Live.resolve_live os x t Hr) as [_ [sn [i [Es [Ed _]]]]].
  exists sn, i. split; assumption.
Qed.

Lemma query_errors_external_witness :
  exists q : qstate nat,
    process_query_async demo_parse gw_bad_args demo_call (run_ops one_server_ops initial_state)
      "q" 3 = Some (QError "'{' was never closed", q) /\
    external_error demo_parse gw_bad_args demo_call "'{' was never closed".
Proof.
  eexists. split; [reflexivity |].
  apply (query_errors_external demo_parse gw_bad_args demo_call one_server_ops "q" 3 _ _ eq_refl).
Defined.



(** The command-line client sends every requested call to its one session,
    in order, without looking the name up among the tools it listed: when
    [process_query] returns, the invocations made are exactly the requested
    calls (name, parsed arguments) of the transcript. *)
Theorem cli_sends_every_call {Args} (parse : string -> Args + string) gw session_call
    (available : list tool) (query : string) (fuel : nat) c (cs : cli_state Args) :
  cli_process_query parse gw session_call available query fuel = Some (CliReturn c, cs) ->
  cli_calls cs = requested parse (all_calls (cli_messages cs)) /\
  map fst (cli_calls cs) = map fname (all_calls (cli_messages cs)).
Proof.
  intros H.
  exact (CliLoop.cli_loop_calls parse gw session_call _ fuel (mkCli [MUser query] []) c cs
           (conj eq_refl eq_refl) H).
Qed.

Lemma cli_sends_every_call_witness :
  exists cs : cli_state nat,
    cli_process_query demo_parse gw_echo_missing demo_session [] "q" 5 =
      Some (CliReturn (Some "done"), cs) /\
    map fst (cli_calls cs) = ["echo"; "missing"].
Proof.
  eexists. split; [reflexivity |].
  rewrite (proj2 (cli_sends_every_call demo_parse gw_echo_missing demo_session [] "q" 5 _ _
                    eq_refl)).
  reflexivity.
Defined.

Module ServerText.

Lemma to_int_nonnil (z : Z) :
  Z.to_int z <> Decimal.Pos Decimal.Nil /\ Z.to_int z <> Decimal.Neg Decimal.Nil.
Proof.
  pose proof (DecimalZ.of_to z) as H.
  destruct z as [|p|p]; split; intros E; try discriminate E;
    rewrite E in H; simpl in H; discriminate H.
Qed.

(** [str(n)] is read back as [n] by the decimal parser. *)
Lemma py_str_int_round_trip (z : Z) :
  option_map Z.of_int (NilZero.int_of_string (py_str (PInt z))) = Some z.
Proof.
  simpl py_str. destruct (to_int_nonnil z) as [H1 H2].
  rewrite (NilZero.isi _ H1 H2). simpl. rewrite DecimalZ.of_to. reflexivity.
Qed.

End ServerText.

(** The example server answers every tool name that [handle_list_tools]
    does not list with the text "Error: Unknown tool: <name>" as a normal
    result: the [ValueError] it raises is caught, so nothing propagates to
    the client as an exception. *)
Theorem server_unknown_tool weather (name : string) (arguments : list (string * pyval)) :
  ~ In name server_tool_names ->
  handle_call_tool weather name arguments = ("Error: Unknown tool: " ++ name)%string.
Proof.
  intros Hn. unfold server_tool_names in Hn. simpl in Hn.
  unfold handle_call_tool.
  destruct (String.eqb name "echo") eqn:E1;
    [apply String.eqb_eq in E1; subst; tauto |].
  destruct (String.eqb name "add_numbers") eqn:E2;
    [apply String.eqb_eq in E2; subst; tauto |].
  destruct (String.eqb name "get_weather_forecast") eqn:E3;
    [apply String.eqb_eq in E3; subst; tauto |].
  destruct (String.eqb name "get_weather_alerts") eqn:E4;
    [apply String.eqb_eq in E4; subst; tauto |].
  reflexivity.
Qed.

Lemma server_unknown_tool_witness :
  handle_call_tool weather_down "missing" [] = "Error: Unknown tool: missing".
Proof.
  apply server_unknown_tool. simpl. intros [H|[H|[H|[H|[]]]]]; discriminate.
Defined.

(** [add_numbers] on integer arguments, a missing one counting as 0,
    answers "Result: " followed by the decimal text of the sum, which the
    decimal parser reads back as the sum. *)
Theorem add_numbers_round_trip weather (arguments : list (string * pyval)) (a b : Z) :
  (dict_get "a" arguments = Some (PInt a) \/ (dict_get "a" arguments = None /\ a = 0%Z)) ->
  (dict_get "b" arguments = Some (PInt b) \/ (dict_get "b" arguments = None /\ b = 0%Z)) ->
  exists s, handle_call_tool weather "add_numbers" arguments = ("Result: " ++ s)%string /\
            option_map Z.of_int (NilZero.int_of_string s) = Some (a + b)%Z.
Proof.
  intros Ha Hb.
  assert (Ea : arg_get arguments "a" (PInt 0) = PInt a)
    by (unfold arg_get; destruct Ha as [->|[-> ->]]; reflexivity).
  assert (Eb : arg_get arguments "b" (PInt 0) = PInt b)
    by (unfold arg_get; destruct Hb as [->|[-> ->]]; reflexivity).
  exists (py_str (PInt (a + b)%Z)). split.
  - unfold handle_call_tool. rewrite Ea, Eb. reflexivity.
  - apply ServerText.py_str_int_round_trip.
Qed.

Lemma add_numbers_round_trip_witness :
  handle_call_tool weather_down "add_numbers" [("a", PInt 40%Z)] = "Result: 40" /\
  exists s, handle_call_tool weather_down "add_numbers" [("a", PInt 40%Z)] =
              ("Result: " ++ s)%string /\
            option_map Z.of_int (NilZero.int_of_string s) = Some (40 + 0)%Z.
Proof.
  split; [reflexivity |].
  apply (add_numbers_round_trip weather_down [("a", PInt 40%Z)] 40%Z 0%Z);
    [left; reflexivity | right; split; reflexivity].
Defined.
